(** * best-price-tracker: the search / wishlist workflow of [app.py]

    A shallow embedding of the Flask application: the two tables ([Game],
    [Wishlist]) as lists of rows in storage order, the storefront API as a
    pair of functions that either answer or raise [RequestException], and
    every request handler as a function from the database before the request
    to the response, the database after it, the log lines written and the
    notices flashed.

    Conventions of the embedding:
    - text is a [string] of bytes; [str.lower], [str.split] and SQL [LIKE]
      are the ASCII ones;
    - a Python [float] is a binary64 [PrimFloat.float]; [int / int] is the
      IEEE division of the two converted operands, which is what CPython
      computes when both are below [2^53] in magnitude;
    - an unhandled exception ends the request as [Crash]; the session is
      then rolled back to the last commit. *)

From Stdlib Require Import ZArith List Sorted String Ascii Bool Lia.
From Stdlib Require Import Floats Uint63 DecimalString DecimalZ.
Import ListNotations.

Set Warnings "-inexact-float".

Open Scope string_scope.
Open Scope Z_scope.

(** ** Python built-ins used by the application *)

Module Py.

(** [str(n)] for an [int]. *)
Definition str (n : Z) : string := NilZero.string_of_int (Z.to_int n).

(** [c.lower()] on one ASCII character; a byte outside ASCII is kept, where
    Python lower-cases the character it belongs to. *)
Definition lower_ascii (c : ascii) : ascii :=
  let n := nat_of_ascii c in
  if (Nat.leb 65 n && Nat.leb n 90)%bool then ascii_of_nat (n + 32) else c.

(** [s.lower()], on ASCII text. *)
Fixpoint lower (s : string) : string :=
  match s with
  | EmptyString => EmptyString
  | String c s' => String (lower_ascii c) (lower s')
  end.

(** [c.isspace()] on an ASCII character: tab, line feed, vertical tab, form
    feed, carriage return, the four separators 0x1c-0x1f and the blank; the
    blanks of Unicode beyond ASCII are not recognised. *)
Definition isspace (c : ascii) : bool :=
  let n := nat_of_ascii c in
  ((Nat.leb 9 n && Nat.leb n 13) || (Nat.leb 28 n && Nat.leb n 32))%bool.

(** [s.split()] with no separator: the maximal runs of non-blank
    characters, left to right; [cur] is the run being read. *)
Fixpoint split_from (cur s : string) : list string :=
  match s with
  | EmptyString => match cur with EmptyString => [] | _ => [cur] end
  | String c s' =>
      if isspace c
      then match cur with
           | EmptyString => split_from EmptyString s'
           | _ => cur :: split_from EmptyString s'
           end
      else split_from (cur ++ String c EmptyString) s'
  end.

Definition split (s : string) : list string := split_from EmptyString s.

(** [w in s] on strings: [w] occurs in [s] as a contiguous run. *)
Fixpoint contains (w s : string) : bool :=
  (String.prefix w s
   || match s with
      | EmptyString => false
      | String _ s' => contains w s'
      end)%bool.

(** [float(n)] for an [int], exact below [2^53] in magnitude; from there on
    CPython rounds the exact quotient of a division, and from [2^63] on the
    conversion through [Uint63] wraps. *)
Definition float_of_int (n : Z) : float :=
  match n with
  | Z0 => PrimFloat.zero
  | Zpos _ => PrimFloat.of_uint63 (Uint63.of_Z n)
  | Zneg p => PrimFloat.opp (PrimFloat.of_uint63 (Uint63.of_Z (Zpos p)))
  end.

(** [a / b] on two [int]s (true division). *)
Definition truediv (a b : Z) : float :=
  PrimFloat.div (float_of_int a) (float_of_int b).

(** [d.get(k)] on a dictionary kept as an association list. *)
Fixpoint dict_get {V : Type} (k : string) (d : list (string * V)) : option V :=
  match d with
  | [] => None
  | (k', v) :: d' => if String.eqb k k' then Some v else dict_get k d'
  end.

End Py.

(** ** SQL pattern matching *)

(** SQLite's [LIKE] without an escape character: [%] matches any run of
    characters, [_] any one character, anything else itself. A character is
    a byte here, which is SQLite's notion on ASCII text. *)
Fixpoint like (pat : string) : string -> bool :=
  match pat with
  | EmptyString => fun s => match s with EmptyString => true | _ => false end
  | String c pat' =>
      if Ascii.eqb c "%"%char
      then fix star (s : string) : bool :=
             (like pat' s
              || match s with
                 | EmptyString => false
                 | String _ s' => star s'
                 end)%bool
      else fun s =>
             match s with
             | EmptyString => false
             | String d s' =>
                 ((Ascii.eqb c "_"%char || Ascii.eqb c d) && like pat' s')%bool
             end
  end.

(** [column.ilike(pat)], which SQLAlchemy renders for SQLite as
    [lower(column) LIKE lower(pat)]. *)
Definition ilike (column pat : string) : bool :=
  like (Py.lower pat) (Py.lower column).

(** ** The storefront API *)

(** What [requests.get(...)], [raise_for_status()] and [.json()] give: the
    decoded body, or a [requests.RequestException] with its message. *)
Inductive response (A : Type) : Type :=
| Ok (body : A)
| RequestException (e : string).
Arguments Ok {A} body.
Arguments RequestException {A} e.

(** One entry of the ['items'] list of the store search. *)
Record item : Type := { item_name : string; item_id : Z }.

(** The ['price_overview'] object of an application's details; ['final'] is
    the price in cents, or JSON [null]. *)
Record price_overview : Type := { final : option Z }.

(** The ['data'] object of an application's details. *)
Record app_data : Type := { data_price_overview : option price_overview }.

(** The entry of one application in the details body. *)
Record app_entry : Type := { entry_data : option app_data }.

(** The two read-only endpoints. [storesearch] gives the ['items'] of the
    body (the empty list when the key is missing); [appdetails] gives the body,
    a dictionary from [str(app_id)] to the application's entry. *)
Record Steam : Type := {
  storesearch : string -> response (list item);
  appdetails : Z -> response (list (string * app_entry))
}.

(** The dictionaries [get_steam_price_by_name] returns. *)
Record steam_game : Type := {
  sg_name : string;
  sg_appid : Z;
  sg_price : float
}.

Definition log : Type := list string.

(** Log lines written one after the other. *)
Notation "a +++ b" := (@List.app string a b)
  (at level 60, right associativity).

(** [fetch_price_data(app_id, headers)]. *)
Definition fetch_price_data (steam : Steam) (app_id : Z)
  : option price_overview * log :=
  match appdetails steam app_id with
  | Ok body =>
      let data :=
        match Py.dict_get (Py.str app_id) body with
        | Some entry => entry_data entry
        | None => None
        end in
      (match data with
       | Some d => data_price_overview d
       | None => None
       end, [])
  | RequestException e =>
      (None,
       ["Failed to fetch price data for App ID " ++ Py.str app_id ++ ": " ++ e])
  end.

(** The condition of the loop of [get_steam_price_by_name]:
    [all(word in game['name'].lower()
         for word in game_name.lower().split() if len(word) > 2)],
    with [len] counting bytes, which are the characters of ASCII text. *)
Definition name_matches (game_name name : string) : bool :=
  forallb (fun word => Py.contains word (Py.lower name))
          (filter (fun word => Nat.ltb 2 (String.length word))
                  (Py.split (Py.lower game_name))).

(** [price_data['final'] / 100 if price_data['final'] else 0.0]. *)
Definition normalized_price (price_data : price_overview) : float :=
  match final price_data with
  | Some cents => if cents =? 0 then 0.0%float else Py.truediv cents 100
  | None => 0.0%float
  end.

(** The loop over [search_results], with the lines the details calls log. *)
Fixpoint matching_games (steam : Steam) (game_name : string)
  (search_results : list item) : list steam_game * log :=
  match search_results with
  | [] => ([], [])
  | game :: rest =>
      if name_matches game_name (item_name game)
      then
        let app_id := item_id game in
        let (price_data, l1) := fetch_price_data steam app_id in
        let (found, l2) := matching_games steam game_name rest in
        (match price_data with
         | Some pd =>
             {| sg_name := item_name game;
                sg_appid := app_id;
                sg_price := normalized_price pd |} :: found
         | None => found
         end, l1 +++ l2)
      else matching_games steam game_name rest
  end.

(** [get_steam_price_by_name(game_name)]. *)
Definition get_steam_price_by_name (steam : Steam) (game_name : string)
  : list steam_game * log :=
  match storesearch steam game_name with
  | Ok search_results => matching_games steam game_name search_results
  | RequestException e =>
      ([], ["API Request Error for game '" ++ game_name ++ "': " ++ e])
  end.

(** ** The database *)

Module Game.
Record t : Type := {
  id : Z;
  name : string;
  steam_id : string;
  price : float
}.
End Game.

Module Wishlist.
Record t : Type := {
  id : Z;
  game_id : Z;
  target_price : option float
}.
End Wishlist.

(** Both tables, each a list of rows in row-id order, which is the order in
    which SQLite scans a table and so the order of [.all()] and the row
    [.first()] picks. *)
Record DB : Type := {
  games : list Game.t;
  wishlist : list Wishlist.t
}.

Definition empty_db : DB := {| games := []; wishlist := [] |}.

(** The key SQLite gives a new row of an [INTEGER PRIMARY KEY] table: one
    more than the largest key in use, 1 in an empty table. *)
Definition next_id (ids : list Z) : Z :=
  match ids with
  | [] => 1
  | i :: rest => fold_left Z.max rest i + 1
  end.

(** [Game.query.filter(Game.name.ilike(f"%{game_name}%")).all()]. *)
Definition games_by_name (game_name : string) (db : DB) : list Game.t :=
  filter (fun g => ilike (Game.name g) ("%" ++ game_name ++ "%")) (games db).

(** [Game.query.filter_by(steam_id=appid).first()]; the column is text, so
    the integer is compared through its decimal form. *)
Definition game_by_steam_id (appid : Z) (db : DB) : option Game.t :=
  find (fun g => String.eqb (Game.steam_id g) (Py.str appid)) (games db).

(** The keys SQLite can hold and the driver can bind: 64-bit signed
    integers. A larger key in a request makes the driver raise
    [OverflowError] before any query runs; the embedding of the queries
    leaves that error out, and the properties of handlers that take a key
    from the request are stated for keys in this range. *)
Definition in_int64 (k : Z) : Prop := - 2 ^ 63 <= k < 2 ^ 63.

(** [Game.query.get(game_id)], for a key in the range of [in_int64]. *)
Definition game_get (game_id : Z) (db : DB) : option Game.t :=
  find (fun g => Game.id g =? game_id) (games db).

(** [Wishlist.query.get(wishlist_id)], for a key in the range of
    [in_int64]. *)
Definition wishlist_get (wishlist_id : Z) (db : DB) : option Wishlist.t :=
  find (fun w => Wishlist.id w =? wishlist_id) (wishlist db).

(** [Wishlist.query.filter_by(game_id=game.id).first()]. *)
Definition wishlist_by_game (game_id : Z) (db : DB) : option Wishlist.t :=
  find (fun w => Wishlist.game_id w =? game_id) (wishlist db).

(** [existing_game.price = p], flushed. *)
Definition set_price (game_id : Z) (p : float) (db : DB) : DB :=
  {| games :=
       map (fun g =>
              if Game.id g =? game_id
              then {| Game.id := Game.id g; Game.name := Game.name g;
                      Game.steam_id := Game.steam_id g; Game.price := p |}
              else g) (games db);
     wishlist := wishlist db |}.

(** [db.session.add(Game(name=..., steam_id=..., price=...))], flushed: the
    new database and the new row's key, or [None] for the [IntegrityError]
    of the unique constraint on [name]. *)
Definition insert_game (nm : string) (appid : Z) (p : float) (db : DB)
  : option (DB * Z) :=
  if existsb (fun g => String.eqb (Game.name g) nm) (games db)
  then None
  else
    let new_id := next_id (map Game.id (games db)) in
    Some ({| games :=
               games db ++
               [{| Game.id := new_id; Game.name := nm;
                   Game.steam_id := Py.str appid; Game.price := p |}];
             wishlist := wishlist db |}, new_id).

(** What a nullable [Float] column holds once a Python float is written to
    it: SQLite binds a NaN as [NULL] and keeps a zero of either sign as the
    integer 0, read back as [0.0]; every other value is kept as it is. *)
Definition stored_real (p : float) : option float :=
  if PrimFloat.is_nan p then None
  else if PrimFloat.is_zero p then Some PrimFloat.zero
  else Some p.

(** The same for a value that may be [None]. *)
Definition stored_target (tp : option float) : option float :=
  match tp with
  | Some p => stored_real p
  | None => None
  end.

(** [db.session.add(Wishlist(game_id=..., target_price=...))], flushed; the
    row holds the target price as the column stores it. *)
Definition insert_wishlist (game_id : Z) (tp : option float) (db : DB) : DB :=
  {| games := games db;
     wishlist :=
       wishlist db ++
       [{| Wishlist.id := next_id (map Wishlist.id (wishlist db));
           Wishlist.game_id := game_id;
           Wishlist.target_price := stored_target tp |}] |}.

(** [db.session.delete(item)], flushed: [DELETE ... WHERE id = item.id]. *)
Definition delete_wishlist (wishlist_id : Z) (db : DB) : DB :=
  {| games := games db;
     wishlist :=
       filter (fun w => negb (Wishlist.id w =? wishlist_id)) (wishlist db) |}.

(** [item.target_price = p], flushed; the row holds [p] as the column
    stores it. *)
Definition set_target_price (wishlist_id : Z) (p : float) (db : DB) : DB :=
  {| games := games db;
     wishlist :=
       map (fun w =>
              if Wishlist.id w =? wishlist_id
              then {| Wishlist.id := Wishlist.id w;
                      Wishlist.game_id := Wishlist.game_id w;
                      Wishlist.target_price := stored_real p |}
              else w) (wishlist db) |}.

(** ** Requests and responses *)

(** What a handler returns. The [Game] objects handed to a template are
    objects of the session: they are named by their keys, and the template
    reads their columns from the database as the request leaves it
    ([shown_games]), because a commit expires every loaded object. *)
Inductive outcome : Type :=
| Render (template : string) (rows : list Z)
| Redirect (endpoint : string)
| Crash (exc : string).

Record result : Type := {
  out : outcome;
  db_after : DB;
  logged : log;
  flashed : list (string * string)
}.

(** The rows a rendered page displays. *)
Definition shown_games (r : result) : list Game.t :=
  match out r with
  | Render _ rows =>
      flat_map (fun i => match game_get i (db_after r) with
                         | Some g => [g]
                         | None => []
                         end) rows
  | _ => []
  end.

(** [request.form]. *)
Definition form : Type := list (string * string).

(** [request.form.get(key, type=conv)]: [None] when the field is missing and
    when the conversion raises [ValueError]. *)
Definition form_get {A : Type} (conv : string -> option A) (key : string)
  (f : form) : option A :=
  match Py.dict_get key f with
  | Some v => conv v
  | None => None
  end.

(** ** The request handlers *)

Section Handlers.

(** The conversions Python supplies: [str(x)] and [f"{x:.2f}"] for a float,
    and [int(s)], [float(s)] on a form field, [None] standing for the
    [ValueError] that [form.get] turns into a missing value. *)
Variable float_str : float -> string.
Variable float_2f : float -> string.
Variable int_of_str : string -> option Z.
Variable float_of_str : string -> option float.

(** [str(x)] for an optional number. *)
Definition opt_str {A : Type} (f : A -> string) (x : option A) : string :=
  match x with
  | Some v => f v
  | None => "None"
  end.

(** *** [search] *)

(** One turn of the loop of lines 117-122: the price of the row with the
    item's [steam_id] is refreshed and committed; an item without a row
    is passed over. *)
Definition refresh_existing (db : DB) (steam_game : steam_game) : DB :=
  match game_by_steam_id (sg_appid steam_game) db with
  | Some existing_game =>
      set_price (Game.id existing_game) (sg_price steam_game) db
  | None => db
  end.

(** The loop of lines 135-143 on the session: the database with the
    pending changes, the keys of [new_games] and the lines logged, or the
    lines logged before the unique constraint on [name] fails. *)
Fixpoint add_or_update (steam_games : list steam_game) (db : DB)
  : (DB * list Z * log) + log :=
  match steam_games with
  | [] => inl (db, [], [])
  | steam_game :: rest =>
      match game_by_steam_id (sg_appid steam_game) db with
      | Some existing_game =>
          let line :=
            "Game '" ++ sg_name steam_game ++
            "' already exists in the database. Updating price." in
          match add_or_update rest
                  (set_price (Game.id existing_game)
                             (sg_price steam_game) db) with
          | inl (db', new_games, l) => inl (db', new_games, line :: l)
          | inr l => inr (line :: l)
          end
      | None =>
          match insert_game (sg_name steam_game) (sg_appid steam_game)
                            (sg_price steam_game) db with
          | Some (db1, new_game) =>
              match add_or_update rest db1 with
              | inl (db', new_games, l) => inl (db', new_game :: new_games, l)
              | inr l => inr l
              end
          | None => inr []
          end
      end
  end.

(** [search()] for a form that carries the field [game_name], as the search
    box of the page sends it; [search_form] below takes the form itself. *)
Definition search (steam : Steam) (game_name : string) (db : DB) : result :=
  let games := games_by_name game_name db in
  let l0 :=
    ["Search requested for game: " ++ game_name;
     "Database search returned " ++ Py.str (Z.of_nat (List.length games)) ++
     " result(s)"] in
  match games with
  | _ :: _ =>
      let l1 :=
        ["Game found in local database, but proceeding to update from Steam API."] in
      let (steam_games, l2) := get_steam_price_by_name steam game_name in
      match steam_games with
      | first :: _ =>
          let steam_game := last steam_games first in
          {| out := Render "index.html" (map Game.id games);
             db_after := fold_left refresh_existing steam_games db;
             logged :=
               l0 +++ l1 +++ l2 +++
               ["Game '" ++ sg_name steam_game ++
                "' updated or added to the database with price " ++
                float_str (sg_price steam_game) ++ "."];
             flashed := [] |}
      | [] =>
          {| out := Render "index.html" (map Game.id games);
             db_after := db;
             logged :=
               l0 +++ l1 +++ l2 +++
               ["No updated results found on Steam API for: " ++ game_name];
             flashed := [] |}
      end
  | [] =>
      let l1 :=
        ["Game not found in local database. Fetching from Steam API for: " ++
         game_name] in
      let (steam_games, l2) := get_steam_price_by_name steam game_name in
      match steam_games with
      | _ :: _ =>
          let l3 :=
            ["Found " ++ Py.str (Z.of_nat (List.length steam_games)) ++
             " game(s) on Steam API, adding to local database."] in
          match add_or_update steam_games db with
          | inl (db', new_games, l4) =>
              {| out := Render "index.html" new_games;
                 db_after := db';
                 logged := l0 +++ l1 +++ l2 +++ l3 +++ l4;
                 flashed := [] |}
          | inr l4 =>
              {| out := Crash "IntegrityError";
                 db_after := db;
                 logged := l0 +++ l1 +++ l2 +++ l3 +++ l4;
                 flashed := [] |}
          end
      | [] =>
          {| out := Render "index.html" [];
             db_after := db;
             logged :=
               l0 +++ l1 +++ l2 +++
               ["No results found on Steam API for: " ++ game_name];
             flashed := [] |}
      end
  end.

(** *** [add_to_wishlist] *)

Definition add_to_wishlist (game_id : Z) (f : form) (db : DB) : result :=
  let l0 :=
    ["Attempting to add game with ID " ++ Py.str game_id ++ " to wishlist."] in
  let target_price := form_get float_of_str "target_price" f in
  let done := ["Redirecting to wishlist page."] in
  match game_get game_id db with
  | Some game =>
      match wishlist_by_game (Game.id game) db with
      | None =>
          {| out := Redirect "wishlist";
             db_after := insert_wishlist (Game.id game) target_price db;
             logged :=
               l0 +++
               ["Game '" ++ Game.name game ++
                "' added to wishlist with target price " ++
                opt_str float_str target_price ++ "."] +++ done;
             flashed := [] |}
      | Some _ =>
          {| out := Redirect "wishlist";
             db_after := db;
             logged :=
               l0 +++
               ["Game '" ++ Game.name game ++ "' is already in the wishlist."] +++
               done;
             flashed := [] |}
      end
  | None =>
      {| out := Redirect "wishlist";
         db_after := db;
         logged :=
           l0 +++ ["Game with ID '" ++ Py.str game_id ++ "' not found."] +++ done;
         flashed := [] |}
  end.

(** *** [delete_from_wishlist] *)

Definition delete_from_wishlist (wishlist_id : Z) (db : DB) : result :=
  match wishlist_get wishlist_id db with
  | Some item =>
      match game_get (Wishlist.game_id item) db with
      | Some game =>
          {| out := Redirect "wishlist";
             db_after := delete_wishlist (Wishlist.id item) db;
             logged := [];
             flashed :=
               [(Game.name game ++ " has been removed from your wishlist.",
                 "success")] |}
      | None =>
          (* item.game is None: item.game.name raises *)
          {| out := Crash "AttributeError";
             db_after := db; logged := []; flashed := [] |}
      end
  | None =>
      {| out := Redirect "wishlist";
         db_after := db;
         logged := [];
         flashed := [("Wishlist item not found.", "danger")] |}
  end.

(** *** [update_wishlist_item] *)

(** [repr(item)] for a [Wishlist] row. *)
Definition wishlist_repr (item : Wishlist.t) (db : DB) : string :=
  let game_name :=
    match game_get (Wishlist.game_id item) db with
    | Some game => Game.name game
    | None => "Unknown Game"
    end in
  "<Wishlist Game " ++ game_name ++ ", Target Price " ++
  opt_str float_str (Wishlist.target_price item) ++ ">".

(** [update_wishlist_item()]; the three lines that echo the request
    (method, URL, form) are left out of the log. *)
Definition update_wishlist_item (f : form) (db : DB) : result :=
  let wishlist_id := form_get int_of_str "wishlist_id" f in
  let new_target_price := form_get float_of_str "target_price" f in
  let l0 :=
    ["Attempting to update wishlist item ID " ++ opt_str Py.str wishlist_id ++
     " to target price " ++ opt_str float_str new_target_price ++ "."] in
  let invalid :=
    {| out := Redirect "wishlist";
       db_after := db;
       logged := l0 +++ ["Invalid form data received."];
       flashed := [("Invalid form submission.", "danger")] |} in
  match wishlist_id, new_target_price with
  | Some wid, Some p =>
      (* [not wishlist_id] holds of [None] and of [0] *)
      if wid =? 0 then invalid
      else
        match wishlist_get wid db with
        | Some item =>
            let l1 := ["Found wishlist item: " ++ wishlist_repr item db] in
            let db' := set_target_price (Wishlist.id item) p db in
            match game_get (Wishlist.game_id item) db' with
            | Some game =>
                {| out := Redirect "wishlist";
                   db_after := db';
                   logged :=
                     l0 +++ l1 +++
                     ["Successfully updated target price for " ++
                      Game.name game ++ " to $" ++ float_2f p ++ "."];
                   flashed :=
                     [("Updated target price for " ++ Game.name game ++
                       " to $" ++ float_2f p ++ ".", "success")] |}
            | None =>
                (* raised after the commit *)
                {| out := Crash "AttributeError";
                   db_after := db'; logged := l0 +++ l1; flashed := [] |}
            end
        | None =>
            {| out := Redirect "wishlist";
               db_after := db;
               logged :=
                 l0 +++ ["No wishlist item found with ID " ++ Py.str wid ++ "."];
               flashed := [("Wishlist item not found.", "danger")] |}
        end
  | _, _ => invalid
  end.

End Handlers.

(** ** Specification vocabulary *)

(** [w] occurs in [s]: some text, then [w], then some text. *)
Definition occurs_in (w s : string) : Prop :=
  exists a b : string, s = a ++ w ++ b.


(** The dictionary the client builds for an item whose details carry
    [price_data]. *)
Definition listing (game : item) (price_data : price_overview) : steam_game :=
  {| sg_name := item_name game;
     sg_appid := item_id game;
     sg_price := normalized_price price_data |}.

(** What one item of the search adds to the result. *)
Definition listing_of (steam : Steam) (game_name : string) (game : item)
  : list steam_game :=
  if name_matches game_name (item_name game)
  then match fst (fetch_price_data steam (item_id game)) with
       | Some pd => [listing game pd]
       | None => []
       end
  else [].

(** What one item of the search adds to the log. *)
Definition lines_of (steam : Steam) (game_name : string) (game : item) : log :=
  if name_matches game_name (item_name game)
  then snd (fetch_price_data steam (item_id game))
  else [].

(** Every dropped candidate leaves a log line that names it. *)
Definition every_drop_is_logged : Prop :=
  forall steam game_name search_results game,
    storesearch steam game_name = Ok search_results ->
    In game search_results ->
    name_matches game_name (item_name game) = true ->
    fst (fetch_price_data steam (item_id game)) = None ->
    exists line : string,
      In line (snd (get_steam_price_by_name steam game_name)) /\
      occurs_in (Py.str (item_id game)) line.

(** A storefront whose details answer, for every application, with a body
    that has no price data. *)
Definition steam_without_prices : Steam :=
  {| storesearch := fun _ => Ok [{| item_name := "Portal"; item_id := 400 |}];
     appdetails := fun app_id =>
       Ok [(Py.str app_id, {| entry_data := Some {| data_price_overview := None |} |})] |}.

(** ** Consistent databases *)

(** Keys are positive and grow along the table. *)
Definition increasing (ids : list Z) : Prop :=
  StronglySorted Z.lt (0 :: ids).

(** What the schema and the handlers maintain: keys in order, one [Game] per
    name, every [Wishlist] row pointing at a [Game], and one [Wishlist] row
    per game at most. *)
Record wf (db : DB) : Prop := {
  wf_game_ids : increasing (map Game.id (games db));
  wf_names : NoDup (map Game.name (games db));
  wf_wishlist_ids : increasing (map Wishlist.id (wishlist db));
  wf_game_ref :
    forall w, In w (wishlist db) ->
              In (Wishlist.game_id w) (map Game.id (games db));
  wf_one_entry : NoDup (map Wishlist.game_id (wishlist db))
}.

(** The requests that reach a handler with a side effect. *)
Inductive request : Type :=
| PostSearch (steam : Steam) (game_name : string)
| PostAddToWishlist (game_id : Z) (f : form)
| PostDeleteFromWishlist (wishlist_id : Z)
| PostUpdateWishlistItem (f : form).

Section Server.

Variable float_str : float -> string.
Variable float_2f : float -> string.
Variable int_of_str : string -> option Z.
Variable float_of_str : string -> option float.

(** The routing table. *)
Definition handle (rq : request) (db : DB) : result :=
  match rq with
  | PostSearch steam game_name => search float_str steam game_name db
  | PostAddToWishlist game_id f =>
      add_to_wishlist float_str float_of_str game_id f db
  | PostDeleteFromWishlist wishlist_id => delete_from_wishlist wishlist_id db
  | PostUpdateWishlistItem f =>
      update_wishlist_item float_str float_2f int_of_str float_of_str f db
  end.

(** The databases the application can be in, starting from empty tables. *)
Inductive reachable : DB -> Prop :=
| reachable_empty : reachable empty_db
| reachable_step (rq : request) (db : DB) :
    reachable db -> reachable (db_after (handle rq db)).

End Server.

(** The number of [Wishlist] rows that reference a game. *)
Definition entries_for (game_id : Z) (db : DB) : nat :=
  List.length (filter (fun w => Wishlist.game_id w =? game_id) (wishlist db)).

(** ** Sample data *)

(** A storefront with two listings for "Portal", both priced. *)
Definition steam_portal : Steam :=
  {| storesearch := fun _ =>
       Ok [{| item_name := "Portal"; item_id := 400 |};
           {| item_name := "Portal 2"; item_id := 620 |}];
     appdetails := fun app_id =>
       Ok [(Py.str app_id,
            {| entry_data :=
                 Some {| data_price_overview :=
                           Some {| final := Some (if app_id =? 400
                                                  then 499 else 1999) |} |} |})] |}.


(** A storefront that lists "Half-Life 2" and whose details call fails. *)
Definition steam_half_life : Steam :=
  {| storesearch := fun _ =>
       Ok [{| item_name := "Half-Life 2"; item_id := 220 |};
           {| item_name := "Portal"; item_id := 400 |}];
     appdetails := fun app_id =>
       if app_id =? 220
       then Ok [("220",
                 {| entry_data :=
                      Some {| data_price_overview :=
                                Some {| final := Some 1999 |} |} |})]
       else RequestException "503 Server Error" |}.

(** One game, stored by an earlier search, and one wishlist entry for it. *)
Definition db_portal : DB :=
  {| games := [{| Game.id := 1; Game.name := "Portal";
                  Game.steam_id := "400"; Game.price := 9.99%float |}];
     wishlist := [{| Wishlist.id := 1; Wishlist.game_id := 1;
                     Wishlist.target_price := None |}] |}.

(** [int(s)] on a run of decimal digits. *)
Fixpoint int_of_digits (acc : Z) (s : string) : option Z :=
  match s with
  | EmptyString => Some acc
  | String c s' =>
      let n := nat_of_ascii c in
      if (Nat.leb 48 n && Nat.leb n 57)%bool
      then int_of_digits (10 * acc + Z.of_nat (n - 48)) s'
      else None
  end.

(** Conversions to run the handlers with: [int] and [float] read a
    non-empty run of digits, and a float prints as a placeholder. *)
Definition sample_int (s : string) : option Z :=
  match s with
  | EmptyString => None
  | _ => int_of_digits 0 s
  end.

Definition sample_float (s : string) : option float :=
  option_map Py.float_of_int (sample_int s).

Definition sample_float_str (x : float) : string := "<float>".

(** The two listings of [steam_half_life]. *)
Definition half_life_2 : item := {| item_name := "Half-Life 2"; item_id := 220 |}.
Definition portal : item := {| item_name := "Portal"; item_id := 400 |}.

(** One game and an empty wishlist. *)
Definition db_no_wishlist : DB :=
  {| games := games db_portal; wishlist := [] |}.


(** ** The search request as a form *)

Section SearchRequest.

Variable float_str : float -> string.


End SearchRequest.

(** ** The wishlist page *)

(** [sep.join(l)]. *)
Fixpoint str_join (sep : string) (l : list string) : string :=
  match l with
  | [] => EmptyString
  | x :: rest =>
      match rest with
      | [] => x
      | _ :: _ => x ++ sep ++ str_join sep rest
      end
  end.

Section WishlistPage.

Variable float_str : float -> string.

(** The loop of lines 196-197: one line per item, up to the first item
    whose game is missing, where [item.game.name] raises [AttributeError];
    the flag tells whether the loop ran to its end. *)
Fixpoint item_lines (items : list Wishlist.t) (db : DB) : log * bool :=
  match items with
  | [] => ([], true)
  | item :: rest =>
      match game_get (Wishlist.game_id item) db with
      | Some game =>
          let (l, finished) := item_lines rest db in
          (("Wishlist Item: " ++ wishlist_repr float_str item db ++
            " - Game: " ++ Game.name game ++
            ", Target Price: " ++
            opt_str float_str (Wishlist.target_price item)) :: l,
           finished)
      | None => ([], false)
      end
  end.

(** [wishlist()], the view of [GET /wishlist]; the rows handed to the
    template are named by their keys. The [except Exception] clause turns the
    error of the loop into an empty page; a database that cannot be reached
    is outside the embedding. *)
Definition wishlist_view (db : DB) : result :=
  let wishlist_items := wishlist db in
  let l0 :=
    ["Fetching wishlist items.";
     "Fetched " ++ Py.str (Z.of_nat (List.length wishlist_items)) ++
     " wishlist item(s): [" ++
     str_join ", " (map (fun item => wishlist_repr float_str item db)
                        wishlist_items) ++ "]"] in
  let (l1, finished) := item_lines wishlist_items db in
  if finished
  then {| out := Render "wishlist.html" (map Wishlist.id wishlist_items);
          db_after := db;
          logged := l0 +++ l1;
          flashed := [] |}
  else {| out := Render "wishlist.html" [];
          db_after := db;
          logged :=
            l0 +++ l1 +++
            ["Error fetching wishlist items: 'NoneType' object has no attribute 'name'"];
          flashed := [] |}.

End WishlistPage.

(** ** The migration [f32c24b5f827]: [target_price] joins [wishlist] *)

Module Migration.

(** A row of [wishlist] before the revision. *)
Record old_row : Type := {
  id : Z;
  game_id : Z
}.

(** [upgrade()]: the nullable column is added, unset in every row. *)
Definition upgrade (table : list old_row) : list Wishlist.t :=
  map (fun r => {| Wishlist.id := id r;
                   Wishlist.game_id := game_id r;
                   Wishlist.target_price := None |}) table.

(** [downgrade()]: the column is dropped. *)
Definition downgrade (table : list Wishlist.t) : list old_row :=
  map (fun w => {| id := Wishlist.id w; game_id := Wishlist.game_id w |}) table.

End Migration.

(** ** More specification vocabulary *)

(** What identifies a stored game: its key, its name and its storefront
    identifier; everything but the price. *)
Definition identity (g : Game.t) : Z * string * string :=
  (Game.id g, Game.name g, Game.steam_id g).

(** A stored game at another price. *)
Definition with_price (p : float) (g : Game.t) : Game.t :=
  {| Game.id := Game.id g; Game.name := Game.name g;
     Game.steam_id := Game.steam_id g; Game.price := p |}.

(** A wishlist entry after the target price [p] is written to it. *)
Definition with_target (p : float) (w : Wishlist.t) : Wishlist.t :=
  {| Wishlist.id := Wishlist.id w; Wishlist.game_id := Wishlist.game_id w;
     Wishlist.target_price := stored_real p |}.

(** The row the not-found branch of [search] stores for an item. *)
Definition stored_as (sg : steam_game) : string * string * float :=
  (sg_name sg, Py.str (sg_appid sg), sg_price sg).

(** The columns of a stored game that come from the storefront. *)
Definition columns (g : Game.t) : string * string * float :=
  (Game.name g, Game.steam_id g, Game.price g).

(** The candidates of a search whose listing the client returns. *)
Definition kept (steam : Steam) (game_name : string) (game : item) : bool :=
  (name_matches game_name (item_name game)
   && match fst (fetch_price_data steam (item_id game)) with
      | Some _ => true
      | None => false
      end)%bool.


(** ** More sample data *)

(** "Half-Life 2" stored under an identifier the storefront no longer uses. *)
Definition db_half_life : DB :=
  {| games := [{| Game.id := 1; Game.name := "Half-Life 2";
                  Game.steam_id := "219"; Game.price := 9.99%float |}];
     wishlist := [] |}.

(** A storefront that lists "Portal" and "Portal 2"; the details call
    fails for the first and answers with a price for the second. *)
Definition steam_flaky : Steam :=
  {| storesearch := fun _ =>
       Ok [{| item_name := "Portal"; item_id := 400 |};
           {| item_name := "Portal 2"; item_id := 620 |}];
     appdetails := fun app_id =>
       if app_id =? 400
       then RequestException "503 Server Error"
       else Ok [(Py.str app_id,
                 {| entry_data :=
                      Some {| data_price_overview :=
                                Some {| final := Some 1999 |} |} |})] |}.

(** A wishlist entry whose game is gone. *)
Definition db_orphan : DB :=
  {| games := [];
     wishlist := [{| Wishlist.id := 1; Wishlist.game_id := 7;
                     Wishlist.target_price := None |}] |}.

(** * Properties *)

(** ** Worked examples *)

Example split_ex : Py.split "  Half   Life 2 " = ["Half"; "Life"; "2"].
Proof. reflexivity. Qed.

Example half_life_ex : name_matches "Half Life" "Half-Life 2" = true.
Proof. reflexivity. Qed.

Example like_ex : ilike "Portal 2" "%PORT_L%" = true.
Proof. reflexivity. Qed.

Example price_ex : normalized_price {| final := Some 1999 |} = 19.99%float.
Proof. reflexivity. Qed.

(** ** Substrings and the name filter *)




(** A word [str.split] returns is not empty and holds no blank. *)
Lemma split_from_words (s cur word : string) :
  (forall c, In c (list_ascii_of_string cur) -> Py.isspace c = false) ->
  In word (Py.split_from cur s) ->
  word <> EmptyString /\
  forall c, In c (list_ascii_of_string word) -> Py.isspace c = false.
Proof.
  revert cur; induction s as [|d s IH]; intros cur Hcur Hin; simpl in Hin.
  - destruct cur; [contradiction |].
    destruct Hin as [<- | []]. split; [discriminate | assumption].
  - destruct (Py.isspace d) eqn:Hd.
    + destruct cur as [|x cur].
      * apply (IH EmptyString); [intros c [] | assumption].
      * destruct Hin as [<- | Hin]; [split; [discriminate | assumption] |].
        apply (IH EmptyString); [intros c [] | assumption].
    + apply (IH (cur ++ String d EmptyString)); [| assumption].
      intros c Hc.
      assert (Hl : forall a b : string,
                 list_ascii_of_string (a ++ b) =
                 (list_ascii_of_string a ++ list_ascii_of_string b)%list).
      { intros a b; induction a; simpl; congruence. }
      rewrite Hl in Hc. apply in_app_or in Hc as [Hc | [<- | []]]; auto.
Qed.

(** ** The lookup client, item by item *)

Lemma matching_games_flat_map steam game_name search_results :
  matching_games steam game_name search_results =
  (flat_map (listing_of steam game_name) search_results,
   flat_map (lines_of steam game_name) search_results).
Proof.
  induction search_results as [|game rest IH]; [reflexivity |].
  cbn [matching_games flat_map]. unfold listing_of at 1, lines_of at 1.
  destruct (name_matches game_name (item_name game)); [| exact IH].
  rewrite IH. destruct (fetch_price_data steam (item_id game)) as [[pd|] l1];
    reflexivity.
Qed.

Lemma in_matching_games steam game_name search_results (sg : steam_game) :
  In sg (fst (matching_games steam game_name search_results)) <->
  exists game pd,
    In game search_results /\
    name_matches game_name (item_name game) = true /\
    fst (fetch_price_data steam (item_id game)) = Some pd /\
    sg = listing game pd.
Proof.
  rewrite matching_games_flat_map. cbn [fst]. rewrite in_flat_map. split.
  - intros [game [Hin Hsg]]. unfold listing_of in Hsg.
    destruct (name_matches game_name (item_name game)) eqn:Hm; [| contradiction].
    destruct (fst (fetch_price_data steam (item_id game))) as [pd|] eqn:Hpd;
      [| contradiction].
    destruct Hsg as [<- | []]. now exists game, pd.
  - intros [game [pd [Hin [Hm [Hpd ->]]]]]. exists game. split; [assumption |].
    unfold listing_of. rewrite Hm, Hpd. now left.
Qed.

Lemma lookup_ok steam game_name search_results :
  storesearch steam game_name = Ok search_results ->
  get_steam_price_by_name steam game_name =
  matching_games steam game_name search_results.
Proof. intros H. unfold get_steam_price_by_name. now rewrite H. Qed.


(** C4. For a candidate that passes the filter and whose details carry a
    price, the client returns the candidate with the upstream price in cents
    divided by 100 (1999 gives 19.99), and with exactly 0.0 when the upstream
    price is zero or null. The division is stated for prices below [2^53]
    cents, where the conversion of the embedding is the one of CPython. *)
Theorem lookup_price_normalized steam game_name search_results game pd :
  storesearch steam game_name = Ok search_results ->
  In game search_results ->
  name_matches game_name (item_name game) = true ->
  fst (fetch_price_data steam (item_id game)) = Some pd ->
  exists sg : steam_game,
    In sg (fst (get_steam_price_by_name steam game_name)) /\
    sg_name sg = item_name game /\
    sg_appid sg = item_id game /\
    (forall cents : Z,
        final pd = Some cents -> cents <> 0 -> Z.abs cents < 2 ^ 53 ->
        sg_price sg = PrimFloat.div (Py.float_of_int cents) 100%float) /\
    (final pd = Some 1999 -> sg_price sg = 19.99%float) /\
    (final pd = Some 0 \/ final pd = None -> sg_price sg = 0.0%float).
Proof.
  intros Hs Hin Hm Hpd. exists (listing game pd).
  rewrite (lookup_ok _ _ _ Hs). split.
  { apply in_matching_games. now exists game, pd. }
  split; [reflexivity |]. split; [reflexivity |].
  cbn [listing sg_price]. unfold normalized_price. repeat split.
  - intros cents Hf Hnz _. rewrite Hf.
    destruct (Z.eqb_spec cents 0) as [|_]; [contradiction | reflexivity].
  - intros Hf. now rewrite Hf.
  - intros [Hf | Hf]; now rewrite Hf.
Qed.

(** C6, as stated, fails: a candidate whose details answer without price
    data is dropped and nothing is logged. *)
Lemma drop_without_price_data_is_silent : ~ every_drop_is_logged.
Proof.
  intros H.
  destruct (H steam_without_prices "Portal"
              [{| item_name := "Portal"; item_id := 400 |}]
              {| item_name := "Portal"; item_id := 400 |}
              eq_refl (or_introl eq_refl) eq_refl eq_refl) as [line [Hin _]].
  exact Hin.
Qed.

(** The listings of the loop, by name and identifier, are the candidates
    the client keeps. *)
Lemma listings_of_kept steam game_name (l : list item) :
  map (fun sg => (sg_name sg, sg_appid sg))
      (flat_map (listing_of steam game_name) l) =
  map (fun game => (item_name game, item_id game))
      (filter (kept steam game_name) l).
Proof.
  induction l as [|x l IH]; [reflexivity |].
  cbn [flat_map filter]. rewrite map_app, IH. unfold listing_of, kept.
  destruct (name_matches game_name (item_name x)); [| reflexivity].
  now destruct (fst (fetch_price_data steam (item_id x))).
Qed.

(** The log of the loop holds nothing but the lines of failed details
    calls of candidates that pass the filter. *)
Lemma in_matching_lines steam game_name search_results (line : string) :
  In line (snd (matching_games steam game_name search_results)) ->
  exists game e,
    In game search_results /\
    name_matches game_name (item_name game) = true /\
    appdetails steam (item_id game) = RequestException e /\
    line = "Failed to fetch price data for App ID " ++ Py.str (item_id game) ++
           ": " ++ e.
Proof.
  rewrite matching_games_flat_map. cbn [snd]. rewrite in_flat_map.
  intros [game [Hin Hline]]. unfold lines_of in Hline.
  destruct (name_matches game_name (item_name game)) eqn:Hm; [| contradiction].
  unfold fetch_price_data in Hline.
  destruct (appdetails steam (item_id game)) as [body|e] eqn:Ha;
    [contradiction |].
  destruct Hline as [<- | []]. now exists game, e.
Qed.

(** C6, amended. A candidate that passes the filter and whose details call
    fails or answers without price data is the only one left out: every
    other candidate that passes the filter and has price data is returned,
    nothing else is, the listings come one per such candidate in the order
    of the storefront, and the client returns a list, never an error. A
    failed call logs the application's identifier with the error; an answer
    without price data logs nothing, every line of the log then being the
    line of a failed call for another candidate. *)
Theorem dropped_candidate_only steam game_name before game after :
  name_matches game_name (item_name game) = true ->
  fst (fetch_price_data steam (item_id game)) = None ->
  storesearch steam game_name = Ok (before ++ game :: after)%list ->
  (forall game' pd',
      In game' (before ++ after) ->
      name_matches game_name (item_name game') = true ->
      fst (fetch_price_data steam (item_id game')) = Some pd' ->
      In (listing game' pd') (fst (get_steam_price_by_name steam game_name))) /\
  (forall sg,
      In sg (fst (get_steam_price_by_name steam game_name)) ->
      exists game' pd',
        In game' (before ++ after) /\
        name_matches game_name (item_name game') = true /\
        fst (fetch_price_data steam (item_id game')) = Some pd' /\
        sg = listing game' pd') /\
  map (fun sg => (sg_name sg, sg_appid sg))
      (fst (get_steam_price_by_name steam game_name)) =
  map (fun game' => (item_name game', item_id game'))
      (filter (kept steam game_name) (before ++ after)) /\
  (forall e : string,
      appdetails steam (item_id game) = RequestException e ->
      In ("Failed to fetch price data for App ID " ++ Py.str (item_id game) ++
          ": " ++ e)
         (snd (get_steam_price_by_name steam game_name))) /\
  (forall body,
      appdetails steam (item_id game) = Ok body ->
      forall line,
        In line (snd (get_steam_price_by_name steam game_name)) ->
        exists game' e,
          In game' (before ++ after) /\
          appdetails steam (item_id game') = RequestException e /\
          line = "Failed to fetch price data for App ID " ++
                 Py.str (item_id game') ++ ": " ++ e).
Proof.
  intros Hm Hpd Hs. rewrite (lookup_ok _ _ _ Hs).
  assert (Hothers : forall game',
             In game' (before ++ game :: after) ->
             item_id game' <> item_id game ->
             In game' (before ++ after)).
  { intros game' Hin Hne. apply in_app_or in Hin as [Hin | [<- | Hin]].
    - apply in_or_app. now left.
    - contradiction.
    - apply in_or_app. now right. }
  split; [| split; [| split; [| split]]].
  - intros game' pd' Hin Hm' Hpd'. apply in_matching_games.
    exists game', pd'. repeat split; try assumption.
    apply in_app_or in Hin as [Hin | Hin]; apply in_or_app;
      [now left | right; now right].
  - intros sg Hsg. apply in_matching_games in Hsg
      as [game' [pd' [Hin [Hm' [Hpd' ->]]]]].
    exists game', pd'. repeat split; try assumption.
    apply Hothers; [assumption |]. intros He. rewrite He in Hpd'. congruence.
  - rewrite matching_games_flat_map. cbn [fst].
    rewrite flat_map_app. cbn [flat_map].
    assert (Hl : listing_of steam game_name game = [])
      by (unfold listing_of; now rewrite Hm, Hpd).
    rewrite Hl. cbn [app]. rewrite <- flat_map_app.
    apply listings_of_kept.
  - intros e He. rewrite matching_games_flat_map. cbn [snd].
    apply in_flat_map. exists game. split; [apply in_or_app; right; now left |].
    unfold lines_of, fetch_price_data. rewrite Hm, He. now left.
  - intros body Hb line Hline.
    apply in_matching_lines in Hline as [game' [e [Hin [_ [He ->]]]]].
    exists game', e. repeat split; try assumption.
    apply Hothers; [assumption |]. intros Hid. rewrite Hid in He. congruence.
Qed.

(** ** The local query as a substring test *)








(** ** Keys *)

Lemma fold_max_ge (rest : list Z) (i x : Z) :
  In x (i :: rest) -> x <= fold_left Z.max rest i.
Proof.
  revert i x; induction rest as [|y rest IH]; intros i x Hin; simpl.
  - destruct Hin as [Hin | []]. lia.
  - assert (Hi : Z.max i y <= fold_left Z.max rest (Z.max i y))
      by (apply IH; now left).
    destruct Hin as [Hin | [Hin | Hin]].
    + lia.
    + lia.
    + apply IH. now right.
Qed.

Lemma next_id_gt (ids : list Z) (x : Z) : In x ids -> x < next_id ids.
Proof.
  destruct ids as [|i rest]; [contradiction |].
  intros Hin. apply fold_max_ge in Hin. unfold next_id. lia.
Qed.

Lemma sorted_snoc (l : list Z) (n : Z) :
  StronglySorted Z.lt l -> Forall (fun x => x < n) l ->
  StronglySorted Z.lt (l ++ [n]).
Proof.
  induction 1 as [|a l Hs IH Ha]; intros Hn; simpl.
  - repeat constructor.
  - inversion Hn as [|? ? Han Hln]; subst. constructor; [now apply IH |].
    apply Forall_app. split; [assumption | now constructor].
Qed.

Lemma increasing_positive (ids : list Z) (x : Z) :
  increasing ids -> In x ids -> 0 < x.
Proof.
  intros H Hin. apply StronglySorted_inv in H as [_ H].
  rewrite Forall_forall in H. now apply H.
Qed.

Lemma next_id_positive (ids : list Z) : increasing ids -> 0 < next_id ids.
Proof.
  intros H. destruct ids as [|i rest]; [reflexivity |].
  pose proof (increasing_positive _ i H (or_introl eq_refl)).
  pose proof (next_id_gt (i :: rest) i (or_introl eq_refl)). lia.
Qed.

Lemma increasing_snoc (ids : list Z) :
  increasing ids -> increasing (ids ++ [next_id ids]).
Proof.
  intros H. unfold increasing. change (0 :: ids ++ [next_id ids])%list
    with ((0 :: ids) ++ [next_id ids])%list.
  apply sorted_snoc; [exact H |]. constructor.
  - now apply next_id_positive.
  - apply Forall_forall. intros x. apply next_id_gt.
Qed.

Lemma increasing_NoDup (ids : list Z) : increasing ids -> NoDup ids.
Proof.
  intros H. apply StronglySorted_inv in H as [H _].
  induction H as [|a l Hs IH Ha]; constructor; [| assumption].
  intros Hin. rewrite Forall_forall in Ha. specialize (Ha a Hin). lia.
Qed.

Lemma sorted_map_filter {A : Type} (f : A -> Z) (p : A -> bool) (l : list A) :
  StronglySorted Z.lt (map f l) -> StronglySorted Z.lt (map f (filter p l)).
Proof.
  induction l as [|a l IH]; simpl; intros H; [constructor |].
  apply StronglySorted_inv in H as [Hs Ha].
  destruct (p a); simpl; [| now apply IH].
  constructor; [now apply IH |].
  rewrite Forall_forall in *. intros x Hx. apply Ha.
  apply in_map_iff in Hx as [y [<- Hy]]. apply filter_In in Hy as [Hy _].
  now apply in_map.
Qed.

Lemma increasing_map_filter {A : Type} (f : A -> Z) (p : A -> bool) (l : list A) :
  increasing (map f l) -> increasing (map f (filter p l)).
Proof.
  unfold increasing. intros H.
  apply StronglySorted_inv in H as [Hs H0]. constructor.
  - now apply sorted_map_filter.
  - rewrite Forall_forall in *. intros x Hx. apply H0.
    apply in_map_iff in Hx as [y [<- Hy]]. apply filter_In in Hy as [Hy _].
    now apply in_map.
Qed.

Lemma filter_keeps_distinct {Row Key : Type} (keep : Row -> bool)
  (key : Row -> Key) (rows : list Row) :
  NoDup (map key rows) -> NoDup (map key (filter keep rows)).
Proof.
  induction rows as [|r rows IH]; simpl; intros H; [constructor |].
  inversion H as [|? ? Hnin Hnd]; subst.
  destruct (keep r); simpl; [| now apply IH].
  constructor; [| now apply IH].
  intros Hin. apply Hnin. apply in_map_iff in Hin as [y [Hy Hin]].
  apply filter_In in Hin as [Hin _]. rewrite <- Hy. now apply in_map.
Qed.

(** ** The tables stay consistent *)

Lemma game_get_some (i : Z) (db : DB) (g : Game.t) :
  game_get i db = Some g -> In g (games db) /\ Game.id g = i.
Proof.
  intros H. apply find_some in H as [Hin Heq]. split; [assumption | lia].
Qed.

Lemma wishlist_get_some (i : Z) (db : DB) (w : Wishlist.t) :
  wishlist_get i db = Some w -> In w (wishlist db) /\ Wishlist.id w = i.
Proof.
  intros H. apply find_some in H as [Hin Heq]. split; [assumption | lia].
Qed.

Lemma set_price_ids (i : Z) (p : float) (db : DB) :
  map Game.id (games (set_price i p db)) = map Game.id (games db).
Proof.
  unfold set_price; cbn [games]. rewrite map_map. apply map_ext.
  intros g. now destruct (Game.id g =? i).
Qed.

Lemma set_price_names (i : Z) (p : float) (db : DB) :
  map Game.name (games (set_price i p db)) = map Game.name (games db).
Proof.
  unfold set_price; cbn [games]. rewrite map_map. apply map_ext.
  intros g. now destruct (Game.id g =? i).
Qed.

Lemma set_price_wf (i : Z) (p : float) (db : DB) :
  wf db -> wf (set_price i p db).
Proof.
  intros [H1 H2 H3 H4 H5]. constructor.
  - now rewrite set_price_ids.
  - now rewrite set_price_names.
  - exact H3.
  - rewrite set_price_ids. exact H4.
  - exact H5.
Qed.

Lemma refresh_existing_wf (db : DB) (sg : steam_game) :
  wf db -> wf (refresh_existing db sg).
Proof.
  intros H. unfold refresh_existing.
  destruct (game_by_steam_id (sg_appid sg) db); [now apply set_price_wf | exact H].
Qed.

Lemma refresh_all_wf (steam_games : list steam_game) (db : DB) :
  wf db -> wf (fold_left refresh_existing steam_games db).
Proof.
  revert db; induction steam_games as [|sg rest IH]; intros db H; simpl;
    [exact H | now apply IH, refresh_existing_wf].
Qed.

Lemma insert_game_some (nm : string) (appid : Z) (p : float) (db db' : DB) (i : Z) :
  insert_game nm appid p db = Some (db', i) ->
  ~ In nm (map Game.name (games db)) /\
  i = next_id (map Game.id (games db)) /\
  db' = {| games := games db ++
                    [{| Game.id := i; Game.name := nm;
                        Game.steam_id := Py.str appid; Game.price := p |}];
           wishlist := wishlist db |}.
Proof.
  unfold insert_game.
  destruct (existsb _ (games db)) eqn:He; [discriminate |].
  intros H; injection H as <- <-. split; [| split; reflexivity].
  intros Hin. apply in_map_iff in Hin as [g [Hg Hin]].
  assert (Ht : existsb (fun g => String.eqb (Game.name g) nm) (games db) = true).
  { apply existsb_exists. exists g. split; [assumption |].
    now apply String.eqb_eq. }
  congruence.
Qed.

Lemma insert_game_wf (nm : string) (appid : Z) (p : float) (db db' : DB) (i : Z) :
  wf db -> insert_game nm appid p db = Some (db', i) -> wf db'.
Proof.
  intros [H1 H2 H3 H4 H5] H. apply insert_game_some in H as [Hn [-> ->]].
  constructor; cbn [games wishlist].
  - rewrite map_app. now apply increasing_snoc.
  - rewrite map_app. cbn [map Game.name].
    apply NoDup_app; [assumption | repeat constructor; intros [] |].
    intros x Hx [<- | []]. contradiction.
  - exact H3.
  - intros w Hw. rewrite map_app. apply in_or_app. left. now apply H4.
  - exact H5.
Qed.

Lemma add_or_update_wf (steam_games : list steam_game) :
  forall (db db' : DB) (new_games : list Z) (l : log),
    wf db ->
    add_or_update steam_games db = inl (db', new_games, l) ->
    wf db'.
Proof.
  induction steam_games as [|sg rest IH]; intros db db' new_games l Hwf H;
    cbn [add_or_update] in H.
  - now injection H as <- _ _.
  - destruct (game_by_steam_id (sg_appid sg) db) as [g|].
    + destruct (add_or_update rest _) as [[[db1 n1] l1]|l1] eqn:Hr;
        [| discriminate].
      injection H as <- _ _. eapply IH; [| exact Hr]. now apply set_price_wf.
    + destruct (insert_game _ _ _ db) as [[db1 i]|] eqn:Hi; [| discriminate].
      destruct (add_or_update rest db1) as [[[db2 n2] l2]|l2] eqn:Hr;
        [| discriminate].
      injection H as <- _ _. eapply IH; [| exact Hr].
      eapply insert_game_wf; eassumption.
Qed.

Lemma insert_wishlist_wf (game_id : Z) (tp : option float) (db : DB) :
  wf db ->
  In game_id (map Game.id (games db)) ->
  wishlist_by_game game_id db = None ->
  wf (insert_wishlist game_id tp db).
Proof.
  intros [H1 H2 H3 H4 H5] Hg Hnone. constructor; cbn [games wishlist insert_wishlist].
  - exact H1.
  - exact H2.
  - rewrite map_app. now apply increasing_snoc.
  - intros w Hw. apply in_app_or in Hw as [Hw | [<- | []]]; [now apply H4 | exact Hg].
  - rewrite map_app. cbn [map Wishlist.game_id].
    apply NoDup_app; [assumption | repeat constructor; intros [] |].
    intros x Hx [<- | []]. apply in_map_iff in Hx as [w [Hw Hin]].
    unfold wishlist_by_game in Hnone.
    apply (find_none _ _ Hnone) in Hin. lia.
Qed.

Lemma delete_wishlist_wf (wishlist_id : Z) (db : DB) :
  wf db -> wf (delete_wishlist wishlist_id db).
Proof.
  intros [H1 H2 H3 H4 H5]. constructor; cbn [games wishlist delete_wishlist].
  - exact H1.
  - exact H2.
  - now apply increasing_map_filter.
  - intros w Hw. apply filter_In in Hw as [Hw _]. now apply H4.
  - now apply filter_keeps_distinct.
Qed.

Lemma set_target_price_rows (i : Z) (p : float) (db : DB) :
  map Wishlist.id (wishlist (set_target_price i p db)) =
  map Wishlist.id (wishlist db) /\
  map Wishlist.game_id (wishlist (set_target_price i p db)) =
  map Wishlist.game_id (wishlist db).
Proof.
  unfold set_target_price; cbn [wishlist]. rewrite !map_map.
  split; apply map_ext; intros w; now destruct (Wishlist.id w =? i).
Qed.

Lemma set_target_price_wf (i : Z) (p : float) (db : DB) :
  wf db -> wf (set_target_price i p db).
Proof.
  intros [H1 H2 H3 H4 H5].
  destruct (set_target_price_rows i p db) as [Hid Hgid].
  constructor.
  - exact H1.
  - exact H2.
  - now rewrite Hid.
  - intros w Hw. cbn [games set_target_price].
    assert (Hin : In (Wishlist.game_id w)
                     (map Wishlist.game_id (wishlist (set_target_price i p db))))
      by now apply in_map.
    rewrite Hgid in Hin. apply in_map_iff in Hin as [w' [<- Hw']].
    now apply H4.
  - now rewrite Hgid.
Qed.

Lemma empty_db_wf : wf empty_db.
Proof.
  constructor; cbn; try (repeat constructor); intros w [].
Qed.

Section Invariant.

Variable float_str : float -> string.
Variable float_2f : float -> string.
Variable int_of_str : string -> option Z.
Variable float_of_str : string -> option float.

Lemma search_wf steam game_name db :
  wf db -> wf (db_after (search float_str steam game_name db)).
Proof.
  intros H. unfold search.
  destruct (games_by_name game_name db) as [|g found];
    destruct (get_steam_price_by_name steam game_name) as [[|sg sgs] l2];
    cbn [db_after]; try exact H.
  - destruct (add_or_update (sg :: sgs) db) as [[[db' new_games] l4]|l4] eqn:Ha;
      cbn [db_after]; [| exact H].
    eapply add_or_update_wf; eassumption.
  - now apply (refresh_all_wf (sg :: sgs)).
Qed.

Lemma add_to_wishlist_wf game_id f db :
  wf db -> wf (db_after (add_to_wishlist float_str float_of_str game_id f db)).
Proof.
  intros H. unfold add_to_wishlist.
  destruct (game_get game_id db) as [game|] eqn:Hg; [| exact H].
  destruct (wishlist_by_game (Game.id game) db) eqn:Hw; [exact H |].
  cbn [db_after]. apply insert_wishlist_wf; [exact H | | exact Hw].
  apply game_get_some in Hg as [Hin _]. now apply in_map.
Qed.

Lemma delete_from_wishlist_wf wishlist_id db :
  wf db -> wf (db_after (delete_from_wishlist wishlist_id db)).
Proof.
  intros H. unfold delete_from_wishlist.
  destruct (wishlist_get wishlist_id db) as [item|]; [| exact H].
  destruct (game_get (Wishlist.game_id item) db); [| exact H].
  now apply delete_wishlist_wf.
Qed.

Lemma update_wishlist_item_wf f db :
  wf db ->
  wf (db_after
        (update_wishlist_item float_str float_2f int_of_str float_of_str f db)).
Proof.
  intros H. unfold update_wishlist_item.
  destruct (form_get int_of_str "wishlist_id" f) as [wid|]; [| exact H].
  destruct (form_get float_of_str "target_price" f) as [p|]; [| exact H].
  destruct (wid =? 0); [exact H |].
  destruct (wishlist_get wid db) as [item|]; [| exact H].
  destruct (game_get _ _); now apply set_target_price_wf.
Qed.

(** X1. Every database the application reaches from empty tables is consistent. *)
Theorem reachable_wf db :
  reachable float_str float_2f int_of_str float_of_str db -> wf db.
Proof.
  induction 1 as [|rq db _ IH]; [exact empty_db_wf |].
  destruct rq; cbn [handle].
  - now apply search_wf.
  - now apply add_to_wishlist_wf.
  - now apply delete_from_wishlist_wf.
  - now apply update_wishlist_item_wf.
Qed.

End Invariant.

(** ** Queries on consistent tables *)

Lemma game_get_in (i : Z) (db : DB) :
  In i (map Game.id (games db)) ->
  exists g, game_get i db = Some g /\ In g (games db) /\ Game.id g = i.
Proof.
  intros Hin. unfold game_get.
  destruct (find (fun g => Game.id g =? i) (games db)) as [g|] eqn:Hf.
  - exists g. apply find_some in Hf as [Hg He]. repeat split; [assumption | lia].
  - apply in_map_iff in Hin as [g [Hg Hin]].
    apply (find_none _ _ Hf) in Hin. lia.
Qed.

Lemma find_unique {A : Type} (f : A -> Z) (l : list A) (x : A) :
  NoDup (map f l) -> In x l -> find (fun y => f y =? f x) l = Some x.
Proof.
  induction l as [|a l IH]; intros Hnd Hin; [contradiction |].
  simpl in Hnd. inversion Hnd as [|? ? Hnin Hnd']; subst. simpl.
  destruct Hin as [-> | Hin].
  - now rewrite Z.eqb_refl.
  - destruct (Z.eqb_spec (f a) (f x)) as [He|_]; [| now apply IH].
    exfalso. apply Hnin. rewrite He. now apply in_map.
Qed.

Lemma game_get_row (db : DB) (g : Game.t) :
  wf db -> In g (games db) -> game_get (Game.id g) db = Some g.
Proof.
  intros H Hin. apply find_unique; [| assumption].
  apply increasing_NoDup, H.
Qed.


Lemma filter_find_none {A : Type} (p : A -> bool) (l : list A) :
  find p l = None -> filter p l = [].
Proof.
  induction l as [|a l IH]; simpl; [reflexivity |].
  destruct (p a); [discriminate | exact IH].
Qed.

Lemma find_app_some {A : Type} (p : A -> bool) (l : list A) (x : A) :
  p x = true -> find p (l ++ [x]) <> None.
Proof.
  intros Hp. induction l as [|a l IH]; simpl.
  - now rewrite Hp.
  - destruct (p a); [discriminate | exact IH].
Qed.

Lemma filter_unique {A : Type} (f : A -> Z) (l : list A) (x : A) :
  NoDup (map f l) -> In x l ->
  filter (fun y => f y =? f x) l = [x].
Proof.
  induction l as [|a l IH]; intros Hnd Hin; [contradiction |].
  simpl in Hnd. inversion Hnd as [|? ? Hnin Hnd']; subst. simpl.
  destruct Hin as [-> | Hin].
  - rewrite Z.eqb_refl. f_equal.
    assert (Hnone : find (fun y => f y =? f x) l = None).
    { destruct (find (fun y => f y =? f x) l) as [y|] eqn:Hf; [| reflexivity].
      apply find_some in Hf as [Hy He]. exfalso. apply Hnin.
      apply Z.eqb_eq in He. rewrite <- He. now apply in_map. }
    now apply filter_find_none.
  - destruct (Z.eqb_spec (f a) (f x)) as [He|_]; [| now apply IH].
    exfalso. apply Hnin. rewrite He. now apply in_map.
Qed.



Lemma db_portal_wf : wf db_portal.
Proof.
  constructor; cbn.
  - repeat constructor.
  - repeat constructor. intros [].
  - repeat constructor.
  - intros w [<- | []]. now left.
  - repeat constructor. intros [].
Qed.

(** ** The wishlist handlers *)

Section WishlistProperties.

Variable float_str : float -> string.
Variable float_2f : float -> string.
Variable int_of_str : string -> option Z.
Variable float_of_str : string -> option float.

(** The second of two additions in a row finds the entry and changes
    nothing. *)
Lemma add_to_wishlist_again game_id f db game entry :
  game_get game_id db = Some game ->
  wishlist_by_game (Game.id game) db = Some entry ->
  add_to_wishlist float_str float_of_str game_id f db =
  {| out := Redirect "wishlist";
     db_after := db;
     logged :=
       ["Attempting to add game with ID " ++ Py.str game_id ++ " to wishlist.";
        "Game '" ++ Game.name game ++ "' is already in the wishlist.";
        "Redirecting to wishlist page."];
     flashed := [] |}.
Proof. intros Hg Hw. unfold add_to_wishlist. now rewrite Hg, Hw. Qed.

(** C7. For a game that exists, two additions in a row leave exactly one
    wishlist entry for it: the second addition finds the entry, logs that
    the game is already in the wishlist and leaves the database as the first
    left it. *)
Theorem add_to_wishlist_idempotent game_id f1 f2 db :
  wf db ->
  In game_id (map Game.id (games db)) ->
  exists game,
    game_get game_id db = Some game /\
    entries_for game_id
      (db_after (add_to_wishlist float_str float_of_str game_id f2
         (db_after (add_to_wishlist float_str float_of_str game_id f1 db))))
    = 1%nat /\
    add_to_wishlist float_str float_of_str game_id f2
      (db_after (add_to_wishlist float_str float_of_str game_id f1 db)) =
    {| out := Redirect "wishlist";
       db_after := db_after (add_to_wishlist float_str float_of_str game_id f1 db);
       logged :=
         ["Attempting to add game with ID " ++ Py.str game_id ++ " to wishlist.";
          "Game '" ++ Game.name game ++ "' is already in the wishlist.";
          "Redirecting to wishlist page."];
       flashed := [] |}.
Proof.
  intros Hwf Hin.
  destruct (game_get_in game_id db Hin) as [game [Hg [Hgin Hid]]].
  exists game. split; [exact Hg |].
  assert (H1 : exists entry,
             wishlist_by_game (Game.id game)
               (db_after (add_to_wishlist float_str float_of_str game_id f1 db))
             = Some entry /\
             game_get game_id
               (db_after (add_to_wishlist float_str float_of_str game_id f1 db))
             = Some game /\
             entries_for game_id
               (db_after (add_to_wishlist float_str float_of_str game_id f1 db))
             = 1%nat).
  { unfold add_to_wishlist at 1 2 3. rewrite Hg.
    destruct (wishlist_by_game (Game.id game) db) as [entry|] eqn:Hw;
      cbn [db_after].
    - exists entry. split; [exact Hw | split; [exact Hg |]].
      unfold wishlist_by_game in Hw. apply find_some in Hw as [Hein He].
      apply Z.eqb_eq in He. unfold entries_for. rewrite <- Hid, <- He.
      rewrite (filter_unique Wishlist.game_id _ entry);
        [reflexivity | apply Hwf | assumption].
    - unfold wishlist_by_game, insert_wishlist; cbn [wishlist games].
      destruct (find _ (wishlist db ++ _)) as [entry|] eqn:Hf.
      + exists entry. split; [reflexivity | split; [exact Hg |]].
        unfold entries_for; cbn [wishlist]. rewrite filter_app, Hid.
        unfold wishlist_by_game in Hw. rewrite Hid in Hw.
        rewrite (filter_find_none _ _ Hw). cbn. now rewrite Z.eqb_refl.
      + exfalso. revert Hf. apply find_app_some. cbn. apply Z.eqb_refl. }
  destruct H1 as [entry [Hw1 [Hg1 Hc1]]].
  rewrite (add_to_wishlist_again _ _ _ _ _ Hg1 Hw1). cbn [db_after].
  split; [exact Hc1 | reflexivity].
Qed.


(** C9. When the form has no [target_price] or one that does not read as a
    number, the update handler flashes "invalid submission" as a danger
    notice and redirects to the wishlist view, whatever the database holds,
    and the database, so every stored target price, stays as it was. *)
Theorem update_rejects_bad_target_price f db :
  (Py.dict_get "target_price" f = None \/
   exists v, Py.dict_get "target_price" f = Some v /\ float_of_str v = None) ->
  out (update_wishlist_item float_str float_2f int_of_str float_of_str f db)
  = Redirect "wishlist" /\
  flashed (update_wishlist_item float_str float_2f int_of_str float_of_str f db)
  = [("Invalid form submission.", "danger")] /\
  db_after (update_wishlist_item float_str float_2f int_of_str float_of_str f db)
  = db /\
  map Wishlist.target_price
    (wishlist
       (db_after
          (update_wishlist_item float_str float_2f int_of_str float_of_str f db)))
  = map Wishlist.target_price (wishlist db) /\
  forall db2,
    out (update_wishlist_item float_str float_2f int_of_str float_of_str f db2)
    = out (update_wishlist_item float_str float_2f int_of_str float_of_str f db)
    /\
    logged (update_wishlist_item float_str float_2f int_of_str float_of_str f db2)
    = logged (update_wishlist_item float_str float_2f int_of_str float_of_str f db)
    /\
    flashed (update_wishlist_item float_str float_2f int_of_str float_of_str f db2)
    = flashed (update_wishlist_item float_str float_2f int_of_str float_of_str f db).
Proof.
  intros H.
  assert (Hp : form_get float_of_str "target_price" f = None).
  { unfold form_get. destruct H as [-> | [v [-> Hv]]]; [reflexivity | exact Hv]. }
  unfold update_wishlist_item. rewrite Hp.
  destruct (form_get int_of_str "wishlist_id" f); cbn; repeat split.
Qed.

(** C10. A [wishlist_id] that reads as the integer 0 is an invalid
    submission, whatever the target price and the database: the handler logs
    and flashes the invalid form and changes nothing. *)
Theorem update_rejects_id_zero f v db :
  Py.dict_get "wishlist_id" f = Some v ->
  int_of_str v = Some 0 ->
  out (update_wishlist_item float_str float_2f int_of_str float_of_str f db)
  = Redirect "wishlist" /\
  flashed (update_wishlist_item float_str float_2f int_of_str float_of_str f db)
  = [("Invalid form submission.", "danger")] /\
  In "Invalid form data received."
     (logged (update_wishlist_item float_str float_2f int_of_str float_of_str f db))
  /\
  db_after (update_wishlist_item float_str float_2f int_of_str float_of_str f db)
  = db.
Proof.
  intros Hf Hv.
  assert (Hw : form_get int_of_str "wishlist_id" f = Some 0)
    by (unfold form_get; now rewrite Hf).
  unfold update_wishlist_item. rewrite Hw.
  destruct (form_get float_of_str "target_price" f); cbn; repeat split;
    right; now left.
Qed.

End WishlistProperties.

(** ** The loop of the not-found branch stores every item *)

Lemma set_price_steam_ids (i : Z) (p : float) (db : DB) :
  map Game.steam_id (games (set_price i p db)) = map Game.steam_id (games db).
Proof.
  unfold set_price; cbn [games]. rewrite map_map. apply map_ext.
  intros g. now destruct (Game.id g =? i).
Qed.

Lemma add_or_update_keeps (steam_games : list steam_game) :
  forall (db db' : DB) (new_games : list Z) (l : log) (sid : string),
    add_or_update steam_games db = inl (db', new_games, l) ->
    In sid (map Game.steam_id (games db)) ->
    In sid (map Game.steam_id (games db')).
Proof.
  induction steam_games as [|sg rest IH]; intros db db' new_games l sid H Hin;
    cbn [add_or_update] in H.
  - now injection H as <- _ _.
  - destruct (game_by_steam_id (sg_appid sg) db) as [g0|].
    + destruct (add_or_update rest _) as [[[db1 n1] l1]|l1] eqn:Hr;
        [| discriminate].
      injection H as <- _ _. eapply IH; [exact Hr |].
      now rewrite set_price_steam_ids.
    + destruct (insert_game _ _ _ db) as [[db1 i1]|] eqn:Hi; [| discriminate].
      destruct (add_or_update rest db1) as [[[db2 n2] l2]|l2] eqn:Hr;
        [| discriminate].
      injection H as <- _ _. eapply IH; [exact Hr |].
      apply insert_game_some in Hi as [_ [_ ->]]. cbn [games].
      rewrite map_app. apply in_or_app. now left.
Qed.

(** When the loop of the not-found branch ends without an error, every item
    of the lookup has a row under its identifier. *)
Lemma add_or_update_stores_all (steam_games : list steam_game) :
  forall (db db' : DB) (new_games : list Z) (l : log) (sg : steam_game),
    add_or_update steam_games db = inl (db', new_games, l) ->
    In sg steam_games ->
    In (Py.str (sg_appid sg)) (map Game.steam_id (games db')).
Proof.
  induction steam_games as [|sg0 rest IH]; intros db db' new_games l sg H Hin;
    [contradiction |].
  cbn [add_or_update] in H.
  destruct (game_by_steam_id (sg_appid sg0) db) as [g0|] eqn:Hg.
  - destruct (add_or_update rest _) as [[[db1 n1] l1]|l1] eqn:Hr;
      [| discriminate].
    injection H as <- _ _. destruct Hin as [-> | Hin]; [| now eapply IH; eauto].
    eapply add_or_update_keeps; [exact Hr |].
    rewrite set_price_steam_ids. unfold game_by_steam_id in Hg.
    apply find_some in Hg as [Hg0 He]. apply String.eqb_eq in He.
    rewrite <- He. now apply in_map.
  - destruct (insert_game _ _ _ db) as [[db1 i1]|] eqn:Hi; [| discriminate].
    destruct (add_or_update rest db1) as [[[db2 n2] l2]|l2] eqn:Hr;
      [| discriminate].
    injection H as <- _ _. destruct Hin as [-> | Hin]; [| now eapply IH; eauto].
    eapply add_or_update_keeps; [exact Hr |].
    apply insert_game_some in Hi as [_ [_ ->]]. cbn [games].
    rewrite map_app. apply in_or_app. right. now left.
Qed.

(** ** The search handler *)

Section SearchProperties.

Variable float_str : float -> string.


(** When the local query finds rows, the refresh adds no row: it keeps the
    keys, the names and the wishlist of the database. *)
Lemma refresh_all_rows (steam_games : list steam_game) (db : DB) :
  map Game.id (games (fold_left refresh_existing steam_games db)) =
  map Game.id (games db) /\
  map Game.name (games (fold_left refresh_existing steam_games db)) =
  map Game.name (games db) /\
  wishlist (fold_left refresh_existing steam_games db) = wishlist db.
Proof.
  revert db; induction steam_games as [|sg rest IH]; intros db;
    [now repeat split |].
  cbn [fold_left]. destruct (IH (refresh_existing db sg)) as [H1 [H2 H3]].
  rewrite H1, H2, H3. unfold refresh_existing.
  destruct (game_by_steam_id (sg_appid sg) db); [| now repeat split].
  now rewrite set_price_ids, set_price_names.
Qed.




End SearchProperties.

(** C1. The search handler does not insert when its local query found
    rows: with "Portal" stored and the storefront listing "Portal" and
    "Portal 2", a search for "Portal" refreshes the stored price and stores
    no row for "Portal 2", although the log line of that branch reads
    "updated or added"; the same search on empty tables takes the other
    branch and inserts both. *)
Theorem search_found_branch_never_inserts (float_str : float -> string) :
  games (db_after (search float_str steam_portal "Portal" db_portal)) =
  [{| Game.id := 1; Game.name := "Portal";
      Game.steam_id := "400"; Game.price := 4.99%float |}] /\
  game_by_steam_id 620 (db_after (search float_str steam_portal "Portal" db_portal))
  = None /\
  In ("Game 'Portal 2' updated or added to the database with price " ++
      float_str 19.99%float ++ ".")
     (logged (search float_str steam_portal "Portal" db_portal)) /\
  games (db_after (search float_str steam_portal "Portal" empty_db)) =
  [{| Game.id := 1; Game.name := "Portal";
      Game.steam_id := "400"; Game.price := 4.99%float |};
   {| Game.id := 2; Game.name := "Portal 2";
      Game.steam_id := "620"; Game.price := 19.99%float |}].
Proof.
  repeat split; try reflexivity.
  cbn. do 3 right. now left.
Qed.

(** ** The page of a search *)




Section SearchPage.

Variable float_str : float -> string.


End SearchPage.

(** ** The theorems at work on the sample data *)

Lemma db_no_wishlist_wf : wf db_no_wishlist.
Proof.
  constructor; cbn.
  - repeat constructor.
  - repeat constructor. intros [].
  - repeat constructor.
  - intros w [].
  - constructor.
Qed.


Lemma lookup_price_normalized_witness :
  exists sg : steam_game,
    In sg (fst (get_steam_price_by_name steam_half_life "Half Life")) /\
    sg_name sg = "Half-Life 2" /\
    sg_appid sg = 220 /\
    sg_price sg = 19.99%float.
Proof.
  destruct (lookup_price_normalized steam_half_life "Half Life"
              [half_life_2; portal] half_life_2 {| final := Some 1999 |}
              eq_refl (or_introl eq_refl) eq_refl eq_refl)
    as [sg [Hin [Hn [Hi [_ [Hp _]]]]]].
  exists sg. repeat split; [exact Hin | exact Hn | exact Hi | exact (Hp eq_refl)].
Defined.

Lemma dropped_candidate_only_witness :
  In {| sg_name := "Portal 2"; sg_appid := 620; sg_price := 19.99%float |}
     (fst (get_steam_price_by_name steam_flaky "Portal")) /\
  map (fun sg => (sg_name sg, sg_appid sg))
      (fst (get_steam_price_by_name steam_flaky "Portal")) =
  [("Portal 2", 620)] /\
  In "Failed to fetch price data for App ID 400: 503 Server Error"
     (snd (get_steam_price_by_name steam_flaky "Portal")).
Proof.
  destruct (dropped_candidate_only steam_flaky "Portal"
              [] {| item_name := "Portal"; item_id := 400 |}
              [{| item_name := "Portal 2"; item_id := 620 |}]
              eq_refl eq_refl eq_refl) as [Hkept [_ [Horder [Hlog _]]]].
  split; [| split].
  - exact (Hkept {| item_name := "Portal 2"; item_id := 620 |}
             {| final := Some 1999 |} (or_introl eq_refl) eq_refl eq_refl).
  - exact Horder.
  - exact (Hlog "503 Server Error" eq_refl).
Defined.

Lemma add_to_wishlist_idempotent_witness :
  exists game,
    game_get 1 db_no_wishlist = Some game /\
    entries_for 1
      (db_after (add_to_wishlist sample_float_str sample_float 1
                   [("target_price", "5")]
         (db_after (add_to_wishlist sample_float_str sample_float 1
                      [("target_price", "7")] db_no_wishlist))))
    = 1%nat.
Proof.
  destruct (add_to_wishlist_idempotent sample_float_str sample_float 1
              [("target_price", "7")] [("target_price", "5")]
              db_no_wishlist db_no_wishlist_wf (or_introl eq_refl))
    as [game [Hg [Hc _]]].
  exists game. split; [exact Hg | exact Hc].
Defined.

Lemma in_int64_one : in_int64 1.
Proof. unfold in_int64. lia. Qed.


Lemma update_rejects_bad_target_price_witness :
  flashed (update_wishlist_item sample_float_str sample_float_str
             sample_int sample_float
             [("wishlist_id", "1"); ("target_price", "cheap")] db_portal)
  = [("Invalid form submission.", "danger")] /\
  db_after (update_wishlist_item sample_float_str sample_float_str
              sample_int sample_float
              [("wishlist_id", "1"); ("target_price", "cheap")] db_portal)
  = db_portal.
Proof.
  destruct (update_rejects_bad_target_price sample_float_str sample_float_str
              sample_int sample_float
              [("wishlist_id", "1"); ("target_price", "cheap")] db_portal
              (or_intror (ex_intro _ "cheap" (conj eq_refl eq_refl))))
    as [_ [Hf [Hd _]]].
  split; [exact Hf | exact Hd].
Defined.

Lemma update_rejects_id_zero_witness :
  flashed (update_wishlist_item sample_float_str sample_float_str
             sample_int sample_float
             [("wishlist_id", "0"); ("target_price", "5")] db_portal)
  = [("Invalid form submission.", "danger")] /\
  db_after (update_wishlist_item sample_float_str sample_float_str
              sample_int sample_float
              [("wishlist_id", "0"); ("target_price", "5")] db_portal)
  = db_portal.
Proof.
  destruct (update_rejects_id_zero sample_float_str sample_float_str
              sample_int sample_float
              [("wishlist_id", "0"); ("target_price", "5")] "0" db_portal
              eq_refl eq_refl)
    as [_ [Hf [_ Hd]]].
  split; [exact Hf | exact Hd].
Defined.



(** * Further properties of the handlers *)

(** ** What no request does *)

Lemma set_price_identity (i : Z) (p : float) (db : DB) :
  map identity (games (set_price i p db)) = map identity (games db).
Proof.
  unfold set_price; cbn [games]. rewrite map_map. apply map_ext.
  intros g. now destruct (Game.id g =? i).
Qed.

Lemma refresh_all_identity (steam_games : list steam_game) (db : DB) :
  map identity (games (fold_left refresh_existing steam_games db)) =
  map identity (games db).
Proof.
  revert db; induction steam_games as [|sg rest IH]; intros db; [reflexivity |].
  cbn [fold_left]. rewrite IH. unfold refresh_existing.
  destruct (game_by_steam_id (sg_appid sg) db); [| reflexivity].
  apply set_price_identity.
Qed.

Lemma refresh_all_wishlist (steam_games : list steam_game) (db : DB) :
  wishlist (fold_left refresh_existing steam_games db) = wishlist db.
Proof. apply refresh_all_rows. Qed.

Lemma add_or_update_identity (steam_games : list steam_game) :
  forall (db db' : DB) (new_games : list Z) (l : log),
    add_or_update steam_games db = inl (db', new_games, l) ->
    wishlist db' = wishlist db /\
    exists added,
      map identity (games db') = (map identity (games db) ++ added)%list.
Proof.
  induction steam_games as [|sg rest IH]; intros db db' new_games l H;
    cbn [add_or_update] in H.
  - injection H as <- _ _. split; [reflexivity |]. exists [].
    now rewrite app_nil_r.
  - destruct (game_by_steam_id (sg_appid sg) db) as [g0|].
    + destruct (add_or_update rest _) as [[[db1 n1] l1]|l1] eqn:Hr;
        [| discriminate].
      injection H as <- _ _. destruct (IH _ _ _ _ Hr) as [Hw [added Ha]].
      split; [exact Hw |]. exists added. now rewrite Ha, set_price_identity.
    + destruct (insert_game _ _ _ db) as [[db1 i1]|] eqn:Hi; [| discriminate].
      destruct (add_or_update rest db1) as [[[db2 n2] l2]|l2] eqn:Hr;
        [| discriminate].
      injection H as <- _ _. destruct (IH _ _ _ _ Hr) as [Hw [added Ha]].
      apply insert_game_some in Hi as [_ [_ ->]]. cbn [games wishlist] in *.
      split; [exact Hw |]. rewrite map_app, <- app_assoc in Ha.
      eexists. exact Ha.
Qed.

Section Frames.

Variable float_str : float -> string.
Variable float_2f : float -> string.
Variable int_of_str : string -> option Z.
Variable float_of_str : string -> option float.

(** X3. The search handler leaves the wishlist alone, and the three wishlist
    handlers leave the games alone, whatever the request and the database,
    also when the request ends in an error. *)
Theorem handlers_keep_to_their_table (rq : request) (db : DB) :
  match rq with
  | PostSearch _ _ =>
      wishlist (db_after (handle float_str float_2f int_of_str float_of_str rq db))
      = wishlist db
  | _ =>
      games (db_after (handle float_str float_2f int_of_str float_of_str rq db))
      = games db
  end.
Proof.
  destruct rq as [steam game_name | game_id f | wishlist_id | f]; cbn [handle].
  - unfold search.
    destruct (games_by_name game_name db) as [|g found];
      destruct (get_steam_price_by_name steam game_name) as [[|sg sgs] l2];
      cbn [db_after]; try reflexivity.
    + destruct (add_or_update (sg :: sgs) db) as [[[db' new_games] l4]|l4] eqn:Ha;
        cbn [db_after]; [| reflexivity].
      now apply add_or_update_identity in Ha as [Hw _].
    + apply refresh_all_wishlist.
  - unfold add_to_wishlist. destruct (game_get game_id db) as [game|];
      [| reflexivity].
    now destruct (wishlist_by_game (Game.id game) db).
  - unfold delete_from_wishlist.
    destruct (wishlist_get wishlist_id db) as [item|]; [| reflexivity].
    now destruct (game_get (Wishlist.game_id item) db).
  - unfold update_wishlist_item.
    destruct (form_get int_of_str "wishlist_id" f) as [wid|]; [| reflexivity].
    destruct (form_get float_of_str "target_price" f) as [p|]; [| reflexivity].
    destruct (wid =? 0); [reflexivity |].
    destruct (wishlist_get wid db) as [item|]; [| reflexivity].
    now destruct (game_get _ _).
Qed.

(** X2. No request deletes a stored game or changes its key, its name or its
    storefront identifier: after any request the table is the old games, in
    place and recognisable, followed by the games the request added. *)
Theorem games_only_grow (rq : request) (db : DB) :
  exists added,
    map identity
        (games (db_after (handle float_str float_2f int_of_str float_of_str rq db)))
    = (map identity (games db) ++ added)%list.
Proof.
  destruct rq as [steam game_name | game_id f | wishlist_id | f]; cbn [handle].
  - unfold search.
    destruct (games_by_name game_name db) as [|g found];
      destruct (get_steam_price_by_name steam game_name) as [[|sg sgs] l2];
      cbn [db_after]; try (exists []; now rewrite app_nil_r).
    + destruct (add_or_update (sg :: sgs) db) as [[[db' new_games] l4]|l4] eqn:Ha;
        cbn [db_after]; [| exists []; now rewrite app_nil_r].
      now apply add_or_update_identity in Ha as [_ Ha].
    + exists []. rewrite app_nil_r. apply (refresh_all_identity (sg :: sgs)).
  - exists []. rewrite app_nil_r. unfold add_to_wishlist.
    destruct (game_get game_id db) as [game|]; [| reflexivity].
    now destruct (wishlist_by_game (Game.id game) db).
  - exists []. rewrite app_nil_r. unfold delete_from_wishlist.
    destruct (wishlist_get wishlist_id db) as [item|]; [| reflexivity].
    now destruct (game_get (Wishlist.game_id item) db).
  - exists []. rewrite app_nil_r. unfold update_wishlist_item.
    destruct (form_get int_of_str "wishlist_id" f) as [wid|]; [| reflexivity].
    destruct (form_get float_of_str "target_price" f) as [p|]; [| reflexivity].
    destruct (wid =? 0); [reflexivity |].
    destruct (wishlist_get wid db) as [item|]; [| reflexivity].
    now destruct (game_get _ _).
Qed.

(** X4. On a consistent database the three wishlist handlers never fail on
    a missing game: for keys in the range of the database, an addition, a
    deletion and an update all answer with the redirect to the wishlist
    view. *)
Theorem wishlist_handlers_redirect (db : DB) :
  wf db ->
  (forall game_id f,
      in_int64 game_id ->
      out (add_to_wishlist float_str float_of_str game_id f db)
      = Redirect "wishlist") /\
  (forall wishlist_id,
      in_int64 wishlist_id ->
      out (delete_from_wishlist wishlist_id db) = Redirect "wishlist") /\
  (forall f,
      (forall wid, form_get int_of_str "wishlist_id" f = Some wid ->
                   in_int64 wid) ->
      out (update_wishlist_item float_str float_2f int_of_str float_of_str f db)
      = Redirect "wishlist").
Proof.
  intros Hwf. split; [| split].
  - intros game_id f _. unfold add_to_wishlist.
    destruct (game_get game_id db) as [game|]; [| reflexivity].
    now destruct (wishlist_by_game (Game.id game) db).
  - intros wishlist_id _. unfold delete_from_wishlist.
    destruct (wishlist_get wishlist_id db) as [item|] eqn:Hi; [| reflexivity].
    apply wishlist_get_some in Hi as [Hin _].
    destruct (game_get_in _ db (wf_game_ref db Hwf item Hin)) as [game [-> _]].
    reflexivity.
  - intros f _. unfold update_wishlist_item.
    destruct (form_get int_of_str "wishlist_id" f) as [wid|]; [| reflexivity].
    destruct (form_get float_of_str "target_price" f) as [p|]; [| reflexivity].
    destruct (wid =? 0); [reflexivity |].
    destruct (wishlist_get wid db) as [item|] eqn:Hi; [| reflexivity].
    apply wishlist_get_some in Hi as [Hin _].
    destruct (game_get_in _ (set_target_price (Wishlist.id item) p db)
                (wf_game_ref db Hwf item Hin)) as [game [-> _]].
    reflexivity.
Qed.

End Frames.

Lemma wishlist_handlers_redirect_witness :
  out (delete_from_wishlist 1 db_portal) = Redirect "wishlist".
Proof.
  destruct (wishlist_handlers_redirect sample_float_str sample_float_str
              sample_int sample_float db_portal db_portal_wf)
    as [_ [Hdel _]].
  exact (Hdel 1 in_int64_one).
Defined.

Lemma reachable_wf_witness :
  wf (db_after (search sample_float_str steam_portal "Portal" empty_db)).
Proof.
  apply (reachable_wf sample_float_str sample_float_str sample_int sample_float).
  apply (reachable_step _ _ _ _ (PostSearch steam_portal "Portal")).
  apply reachable_empty.
Defined.


(** ** Prices after a search *)

Lemma str_inj (a b : Z) : Py.str a = Py.str b -> a = b.
Proof.
  unfold Py.str. intros H.
  assert (Hn : forall z, NilZero.int_of_string
                           (NilZero.string_of_int (Z.to_int z))
                         = Some (Z.to_int z)).
  { intros z. apply NilZero.isi; intros Hz;
      pose proof (f_equal Z.of_int Hz) as Hz0;
      rewrite DecimalZ.of_to in Hz0; cbn in Hz0; subst z; discriminate Hz. }
  apply (f_equal NilZero.int_of_string) in H. rewrite !Hn in H.
  injection H as H. now apply DecimalZ.to_int_inj.
Qed.

Lemma find_map_same {A : Type} (q : A -> bool) (f : A -> A) (l : list A) :
  (forall x, q (f x) = q x) ->
  find q (map f l) = option_map f (find q l).
Proof.
  intros Hq. induction l as [|a l IH]; [reflexivity |].
  cbn [map find]. rewrite Hq. now destruct (q a).
Qed.

Lemma game_get_set_price (i j : Z) (p : float) (db : DB) :
  game_get i (set_price j p db) =
  option_map (fun g => if Game.id g =? j then with_price p g else g)
             (game_get i db).
Proof.
  unfold game_get, set_price; cbn [games].
  apply (find_map_same (fun g => Game.id g =? i)).
  intros g. now destruct (Game.id g =? j).
Qed.

Lemma game_by_steam_id_set_price (a j : Z) (p : float) (db : DB) :
  game_by_steam_id a (set_price j p db) =
  option_map (fun g => if Game.id g =? j then with_price p g else g)
             (game_by_steam_id a db).
Proof.
  unfold game_by_steam_id, set_price; cbn [games].
  apply (find_map_same (fun g => String.eqb (Game.steam_id g) (Py.str a))).
  intros g. now destruct (Game.id g =? j).
Qed.

Lemma game_by_steam_id_some (a : Z) (db : DB) (g : Game.t) :
  game_by_steam_id a db = Some g ->
  In g (games db) /\ Game.steam_id g = Py.str a.
Proof.
  intros H. apply find_some in H as [Hin He].
  split; [assumption | now apply String.eqb_eq].
Qed.

(** A refresh finds the same stored game before and after another refresh. *)
Lemma refresh_existing_finds (db : DB) (sg : steam_game) (a : Z) (g : Game.t) :
  game_by_steam_id a db = Some g ->
  exists g1,
    game_by_steam_id a (refresh_existing db sg) = Some g1 /\
    identity g1 = identity g.
Proof.
  intros Hg. unfold refresh_existing.
  destruct (game_by_steam_id (sg_appid sg) db) as [g0|]; [| now exists g].
  rewrite game_by_steam_id_set_price, Hg. cbn [option_map].
  eexists. split; [reflexivity |]. now destruct (Game.id g =? Game.id g0).
Qed.

Lemma refresh_all_finds (steam_games : list steam_game) :
  forall (db : DB) (a : Z) (g : Game.t),
    game_by_steam_id a db = Some g ->
    exists g1,
      game_by_steam_id a (fold_left refresh_existing steam_games db) = Some g1 /\
      identity g1 = identity g.
Proof.
  induction steam_games as [|sg rest IH]; intros db a g Hg; [now exists g |].
  cbn [fold_left].
  destruct (refresh_existing_finds db sg a g Hg) as [g1 [Hg1 Hid1]].
  destruct (IH _ a g1 Hg1) as [g2 [Hg2 Hid2]].
  exists g2. split; [exact Hg2 | congruence].
Qed.

(** The refresh for an item sets the price of the game it finds. *)
Lemma refresh_existing_sets (db : DB) (sg : steam_game) (g : Game.t) :
  wf db ->
  game_by_steam_id (sg_appid sg) db = Some g ->
  game_get (Game.id g) (refresh_existing db sg) =
  Some (with_price (sg_price sg) g).
Proof.
  intros Hwf Hg. unfold refresh_existing. rewrite Hg.
  apply game_by_steam_id_some in Hg as [Hin _].
  rewrite game_get_set_price, (game_get_row db g Hwf Hin). cbn [option_map].
  now rewrite Z.eqb_refl.
Qed.

(** The refresh for an item with another identifier leaves the game alone. *)
Lemma refresh_existing_other (db : DB) (sg : steam_game) (i : Z) (r : Game.t) :
  wf db ->
  game_get i db = Some r ->
  Game.steam_id r <> Py.str (sg_appid sg) ->
  game_get i (refresh_existing db sg) = Some r.
Proof.
  intros Hwf Hr Hne. unfold refresh_existing.
  destruct (game_by_steam_id (sg_appid sg) db) as [g0|] eqn:Hg0; [| exact Hr].
  apply game_by_steam_id_some in Hg0 as [Hin0 Hs0].
  rewrite game_get_set_price, Hr. cbn [option_map].
  destruct (Z.eqb_spec (Game.id r) (Game.id g0)) as [He|_]; [| reflexivity].
  exfalso. apply Hne. apply game_get_some in Hr as [Hin _].
  pose proof (game_get_row db g0 Hwf Hin0) as Hrow0.
  pose proof (game_get_row db r Hwf Hin) as Hrow.
  rewrite He, Hrow0 in Hrow. injection Hrow as ->. exact Hs0.
Qed.

Lemma refresh_all_other (steam_games : list steam_game) :
  forall (db : DB) (i : Z) (r : Game.t),
    wf db ->
    game_get i db = Some r ->
    (forall sg, In sg steam_games -> Game.steam_id r <> Py.str (sg_appid sg)) ->
    game_get i (fold_left refresh_existing steam_games db) = Some r.
Proof.
  induction steam_games as [|sg rest IH]; intros db i r Hwf Hr Hne;
    [exact Hr |].
  cbn [fold_left]. apply IH.
  - now apply refresh_existing_wf.
  - apply refresh_existing_other; [assumption | assumption |].
    apply Hne. now left.
  - intros sg' Hin. apply Hne. now right.
Qed.

Lemma find_snoc_none {A : Type} (p : A -> bool) (l : list A) (x : A) :
  find p l = None -> p x = false -> find p (l ++ [x]) = None.
Proof.
  intros Hl Hx. induction l as [|a l IH]; cbn in *.
  - now rewrite Hx.
  - destruct (p a); [discriminate | now apply IH].
Qed.

Lemma insert_game_fresh (nm : string) (appid : Z) (p : float) (db : DB) :
  ~ In nm (map Game.name (games db)) ->
  insert_game nm appid p db =
  Some ({| games := games db ++
                    [{| Game.id := next_id (map Game.id (games db));
                        Game.name := nm;
                        Game.steam_id := Py.str appid;
                        Game.price := p |}];
           wishlist := wishlist db |},
        next_id (map Game.id (games db))).
Proof.
  intros Hn. unfold insert_game.
  destruct (existsb _ (games db)) eqn:He; [| reflexivity].
  exfalso. apply Hn. apply existsb_exists in He as [g [Hin He]].
  apply String.eqb_eq in He. rewrite <- He. now apply in_map.
Qed.

Lemma insert_game_taken (nm : string) (appid : Z) (p : float) (db : DB) :
  In nm (map Game.name (games db)) -> insert_game nm appid p db = None.
Proof.
  intros Hin. unfold insert_game.
  destruct (existsb _ (games db)) eqn:He; [reflexivity |].
  exfalso. apply in_map_iff in Hin as [g [Hg Hin]].
  assert (Ht : existsb (fun g => String.eqb (Game.name g) nm) (games db) = true).
  { apply existsb_exists. exists g. split; [assumption |].
    now apply String.eqb_eq. }
  congruence.
Qed.

(** The loop of the not-found branch on items that are new to the database
    and differ from one another: one row each, in order, nothing logged. *)
Lemma add_or_update_new (steam_games : list steam_game) :
  forall db : DB,
    NoDup (map sg_appid steam_games) ->
    NoDup (map sg_name steam_games) ->
    (forall sg, In sg steam_games -> game_by_steam_id (sg_appid sg) db = None) ->
    (forall sg, In sg steam_games ->
                ~ In (sg_name sg) (map Game.name (games db))) ->
    exists new_rows,
      add_or_update steam_games db =
      inl ({| games := games db ++ new_rows; wishlist := wishlist db |},
           map Game.id new_rows, []) /\
      map columns new_rows = map stored_as steam_games.
Proof.
  induction steam_games as [|sg rest IH]; intros db Ha Hn Hnew Hname.
  - exists []. cbn. rewrite app_nil_r. now destruct db.
  - cbn [map] in Ha, Hn.
    inversion Ha as [|? ? Hanin Ha']; subst.
    inversion Hn as [|? ? Hnnin Hn']; subst.
    cbn [add_or_update]. rewrite (Hnew sg (or_introl eq_refl)).
    rewrite (insert_game_fresh _ _ _ _ (Hname sg (or_introl eq_refl))).
    set (row := {| Game.id := next_id (map Game.id (games db));
                   Game.name := sg_name sg;
                   Game.steam_id := Py.str (sg_appid sg);
                   Game.price := sg_price sg |}).
    destruct (IH {| games := games db ++ [row]; wishlist := wishlist db |}
                Ha' Hn') as [new_rows [Hrun Hcols]].
    + intros sg' Hin. unfold game_by_steam_id; cbn [games].
      apply find_snoc_none; [exact (Hnew sg' (or_intror Hin)) |].
      cbn. apply String.eqb_neq. intros He. apply str_inj in He.
      apply Hanin. rewrite He. now apply in_map.
    + intros sg' Hin. cbn [games]. rewrite map_app. intros Hc.
      apply in_app_or in Hc as [Hc | [Hc | []]].
      * exact (Hname sg' (or_intror Hin) Hc).
      * cbn in Hc. apply Hnnin. rewrite Hc. now apply in_map.
    + rewrite Hrun. cbn [games wishlist]. exists (row :: new_rows).
      rewrite <- app_assoc. split; [reflexivity |].
      cbn [map]. now rewrite Hcols.
Qed.

(** The loop of the not-found branch stops at an item that is new by its
    identifier and old by its name. *)
Lemma add_or_update_duplicate (sg : steam_game) (after : list steam_game) :
  forall (before : list steam_game) (db : DB),
    In (sg_name sg) (map Game.name (games db)) ->
    game_by_steam_id (sg_appid sg) db = None ->
    (forall sg', In sg' before -> sg_appid sg' <> sg_appid sg) ->
    exists l, add_or_update (before ++ sg :: after) db = inr l.
Proof.
  induction before as [|sg' before IH]; intros db Hname Hnew Hdiff.
  - cbn [app add_or_update]. rewrite Hnew, (insert_game_taken _ _ _ _ Hname).
    now exists [].
  - cbn [app add_or_update].
    assert (Hrest : forall x, In x before -> sg_appid x <> sg_appid sg)
      by (intros x Hx; apply Hdiff; now right).
    destruct (game_by_steam_id (sg_appid sg') db) as [g0|].
    + destruct (IH (set_price (Game.id g0) (sg_price sg') db)) as [l Hl].
      * now rewrite set_price_names.
      * now rewrite game_by_steam_id_set_price, Hnew.
      * exact Hrest.
      * rewrite Hl. eexists. reflexivity.
    + destruct (insert_game _ _ _ db) as [[db1 i1]|] eqn:Hi; [| now exists []].
      apply insert_game_some in Hi as [_ [_ ->]].
      destruct (IH {| games := games db ++
                         [{| Game.id := i1; Game.name := sg_name sg';
                             Game.steam_id := Py.str (sg_appid sg');
                             Game.price := sg_price sg' |}];
                      wishlist := wishlist db |}) as [l Hl].
      * cbn [games]. rewrite map_app. apply in_or_app. now left.
      * unfold game_by_steam_id; cbn [games].
        apply find_snoc_none; [exact Hnew |].
        cbn. apply String.eqb_neq. intros He. apply str_inj in He.
        exact (Hdiff sg' (or_introl eq_refl) He).
      * exact Hrest.
      * rewrite Hl. now exists l.
Qed.

Section SearchEffects.

Variable float_str : float -> string.

Lemma search_found_db steam game_name db :
  games_by_name game_name db <> [] ->
  db_after (search float_str steam game_name db) =
  fold_left refresh_existing (fst (get_steam_price_by_name steam game_name)) db.
Proof.
  intros Hfound. unfold search.
  destruct (games_by_name game_name db) as [|g found]; [contradiction |].
  now destruct (get_steam_price_by_name steam game_name) as [[|sg sgs] l2].
Qed.

(** X5. When the local query finds rows, the search refreshes every stored game
    the lookup lists: the game found under an item's identifier carries,
    after the request, the price of the last item with that identifier, and
    is otherwise as it was. If it is one of the rows the local query found,
    the page shows it at the new price. *)
Theorem search_refreshes_price steam game_name db before sg after g :
  wf db ->
  games_by_name game_name db <> [] ->
  fst (get_steam_price_by_name steam game_name) = (before ++ sg :: after)%list ->
  (forall sg', In sg' after -> sg_appid sg' <> sg_appid sg) ->
  game_by_steam_id (sg_appid sg) db = Some g ->
  game_get (Game.id g) (db_after (search float_str steam game_name db)) =
  Some (with_price (sg_price sg) g) /\
  (In g (games_by_name game_name db) ->
   In (with_price (sg_price sg) g)
      (shown_games (search float_str steam game_name db))).
Proof.
  intros Hwf Hfound Hl Hlast Hg.
  assert (Hget : game_get (Game.id g)
                   (db_after (search float_str steam game_name db)) =
                 Some (with_price (sg_price sg) g)).
  { rewrite (search_found_db _ _ _ Hfound), Hl, fold_left_app. cbn [fold_left].
    set (db1 := fold_left refresh_existing before db).
    assert (Hwf1 : wf db1) by now apply refresh_all_wf.
    destruct (refresh_all_finds before db _ g Hg) as [g1 [Hg1 Hid]].
    fold db1 in Hg1. unfold identity in Hid. injection Hid as Hi Hn Hs.
    assert (Hp : with_price (sg_price sg) g1 = with_price (sg_price sg) g)
      by (unfold with_price; now rewrite Hi, Hn, Hs).
    apply refresh_all_other.
    - now apply refresh_existing_wf.
    - rewrite <- Hi, <- Hp. now apply refresh_existing_sets.
    - intros sg' Hin He. cbn in He.
      apply game_by_steam_id_some in Hg as [_ Hsid]. rewrite Hsid in He.
      apply str_inj in He. exact (Hlast sg' Hin (eq_sym He)). }
  split; [exact Hget |].
  intros Hin. unfold shown_games.
  assert (Hout : out (search float_str steam game_name db) =
                 Render "index.html" (map Game.id (games_by_name game_name db))).
  { unfold search.
    destruct (games_by_name game_name db) as [|g0 found]; [contradiction |].
    now destruct (get_steam_price_by_name steam game_name) as [[|x xs] l2]. }
  rewrite Hout. apply in_flat_map. exists (Game.id g).
  split; [now apply in_map |]. rewrite Hget. now left.
Qed.

(** X6. When the local query finds nothing and the lookup returns items that
    are new to the database, by identifier and by name, and differ from one
    another, the search appends one row per item, in the order of the lookup,
    with the item's name, identifier and price, and renders those rows. *)
Theorem search_stores_new_items steam game_name db :
  games_by_name game_name db = [] ->
  NoDup (map sg_appid (fst (get_steam_price_by_name steam game_name))) ->
  NoDup (map sg_name (fst (get_steam_price_by_name steam game_name))) ->
  (forall sg, In sg (fst (get_steam_price_by_name steam game_name)) ->
              game_by_steam_id (sg_appid sg) db = None /\
              ~ In (sg_name sg) (map Game.name (games db))) ->
  exists new_rows,
    games (db_after (search float_str steam game_name db)) =
    (games db ++ new_rows)%list /\
    map columns new_rows =
    map stored_as (fst (get_steam_price_by_name steam game_name)) /\
    out (search float_str steam game_name db) =
    Render "index.html" (map Game.id new_rows).
Proof.
  intros Hnone Ha Hn Hnew. unfold search. rewrite Hnone.
  destruct (get_steam_price_by_name steam game_name) as [sgs l2].
  cbn [fst] in *.
  destruct (add_or_update_new sgs db Ha Hn) as [new_rows [Hrun Hcols]];
    [intros sg Hin; apply (Hnew sg Hin) .. |].
  destruct sgs as [|sg sgs].
  - exists []. cbn. now rewrite app_nil_r.
  - rewrite Hrun. cbn [db_after out games]. now exists new_rows.
Qed.

(** X7. When the local query finds nothing and the lookup returns an item whose
    name is stored under another identifier, the request fails on the unique
    constraint and stores nothing, whatever the items before it inserted. *)
Theorem search_duplicate_name_fails steam game_name db before sg after :
  games_by_name game_name db = [] ->
  fst (get_steam_price_by_name steam game_name) = (before ++ sg :: after)%list ->
  (forall sg', In sg' before -> sg_appid sg' <> sg_appid sg) ->
  In (sg_name sg) (map Game.name (games db)) ->
  game_by_steam_id (sg_appid sg) db = None ->
  out (search float_str steam game_name db) = Crash "IntegrityError" /\
  db_after (search float_str steam game_name db) = db.
Proof.
  intros Hnone Hl Hdiff Hname Hnew. unfold search. rewrite Hnone.
  destruct (get_steam_price_by_name steam game_name) as [sgs l2].
  cbn [fst] in Hl. subst sgs.
  destruct (add_or_update_duplicate sg after before db Hname Hnew Hdiff)
    as [l Hrun].
  destruct (before ++ sg :: after)%list as [|x xs] eqn:Hx.
  - now destruct before.
  - rewrite Hrun. now split.
Qed.

End SearchEffects.

(** ** The wishlist handlers, branch by branch *)

Lemma find_none_filter {A : Type} (p : A -> bool) (l : list A) :
  find p l = None <-> List.length (filter p l) = 0%nat.
Proof.
  induction l as [|a l IH]; cbn; [tauto |].
  destruct (p a); cbn; [split; discriminate | exact IH].
Qed.

Lemma find_snoc_some {A : Type} (p : A -> bool) (l : list A) (x : A) :
  find p l = None -> p x = true -> find p (l ++ [x]) = Some x.
Proof.
  intros Hl Hx. induction l as [|a l IH]; cbn in *.
  - now rewrite Hx.
  - destruct (p a); [discriminate | now apply IH].
Qed.

Lemma find_filter_out {A : Type} (p : A -> bool) (l : list A) :
  find p (filter (fun x => negb (p x)) l) = None.
Proof.
  induction l as [|a l IH]; [reflexivity |]. cbn.
  destruct (p a) eqn:Hp; cbn; [exact IH | now rewrite Hp].
Qed.

(** Writing a column of the row that holds a key changes that row and keeps
    the others in place. *)
Lemma map_at_unique {A : Type} (f : A -> Z) (g : A -> A) (l : list A) (x : A) :
  NoDup (map f l) -> In x l ->
  exists before after,
    l = (before ++ x :: after)%list /\
    map (fun y => if f y =? f x then g y else y) l =
    (before ++ g x :: after)%list.
Proof.
  induction l as [|a l IH]; intros Hnd Hin; [contradiction |].
  simpl in Hnd. inversion Hnd as [|? ? Hnin Hnd']; subst. simpl.
  destruct Hin as [-> | Hin].
  - exists [], l. split; [reflexivity |]. rewrite Z.eqb_refl. cbn. f_equal.
    rewrite <- (map_id l) at 2. apply map_ext_in. intros y Hy.
    destruct (Z.eqb_spec (f y) (f x)) as [He|_]; [| reflexivity].
    exfalso. apply Hnin. rewrite <- He. now apply in_map.
  - destruct (IH Hnd' Hin) as [before [after [Hl Hm]]].
    exists (a :: before), after. split; [simpl; now rewrite Hl |].
    destruct (Z.eqb_spec (f a) (f x)) as [He|_].
    + exfalso. apply Hnin. rewrite He. now apply in_map.
    + simpl. now rewrite Hm.
Qed.

Section WishlistEffects.

Variable float_str : float -> string.
Variable float_2f : float -> string.
Variable int_of_str : string -> option Z.
Variable float_of_str : string -> option float.

Lemma add_to_wishlist_inserts game_id f db :
  In game_id (map Game.id (games db)) ->
  entries_for game_id db = 0%nat ->
  db_after (add_to_wishlist float_str float_of_str game_id f db) =
  {| games := games db;
     wishlist :=
       wishlist db ++
       [{| Wishlist.id := next_id (map Wishlist.id (wishlist db));
           Wishlist.game_id := game_id;
           Wishlist.target_price :=
             stored_target (form_get float_of_str "target_price" f) |}]
  |}.
Proof.
  intros Hex Hc. unfold add_to_wishlist.
  destruct (game_get_in _ _ Hex) as [game [-> [_ Hid]]]. rewrite Hid.
  apply find_none_filter in Hc. unfold wishlist_by_game. now rewrite Hc.
Qed.

(** X9. What an addition does to the tables, for a key in the range of
    the database. It redirects to the wishlist view. When the game exists
    and has no entry yet, the wishlist gains one row at its end, with the
    next key, the game and the target price of the form as the column
    stores it (unset when the field is missing, unreadable or not a
    number). In every other case nothing changes. *)
Theorem add_to_wishlist_effect game_id f db :
  in_int64 game_id ->
  out (add_to_wishlist float_str float_of_str game_id f db)
  = Redirect "wishlist" /\
  (In game_id (map Game.id (games db)) /\ entries_for game_id db = 0%nat ->
   db_after (add_to_wishlist float_str float_of_str game_id f db) =
   {| games := games db;
      wishlist :=
        wishlist db ++
        [{| Wishlist.id := next_id (map Wishlist.id (wishlist db));
            Wishlist.game_id := game_id;
            Wishlist.target_price :=
              stored_target (form_get float_of_str "target_price" f) |}]
   |}) /\
  (~ (In game_id (map Game.id (games db)) /\ entries_for game_id db = 0%nat) ->
   db_after (add_to_wishlist float_str float_of_str game_id f db) = db).
Proof.
  intros _. unfold add_to_wishlist.
  destruct (game_get game_id db) as [game|] eqn:Hg.
  - destruct (game_get_some _ _ _ Hg) as [Hin Hid]. rewrite Hid.
    assert (Hex : In game_id (map Game.id (games db)))
      by (rewrite <- Hid; now apply in_map).
    destruct (wishlist_by_game game_id db) as [entry|] eqn:Hw;
      cbn [out db_after]; (split; [reflexivity |]); split.
    + intros [_ Hc]. apply find_none_filter in Hc.
      unfold wishlist_by_game in Hw. congruence.
    + reflexivity.
    + reflexivity.
    + intros Hn. exfalso. apply Hn. split; [exact Hex |].
      now apply find_none_filter.
  - cbn [out db_after]. split; [reflexivity |]. split; [| reflexivity].
    intros [Hex _]. destruct (game_get_in _ _ Hex) as [g [Hg' _]]. congruence.
Qed.

(** X10. For a game that exists and has no entry yet, adding it to the
    wishlist and then deleting the new entry gives back the database as it
    was. *)
Theorem add_then_delete game_id f db :
  In game_id (map Game.id (games db)) ->
  entries_for game_id db = 0%nat ->
  db_after
    (delete_from_wishlist (next_id (map Wishlist.id (wishlist db)))
       (db_after (add_to_wishlist float_str float_of_str game_id f db)))
  = db /\
  out
    (delete_from_wishlist (next_id (map Wishlist.id (wishlist db)))
       (db_after (add_to_wishlist float_str float_of_str game_id f db)))
  = Redirect "wishlist".
Proof.
  intros Hex Hc.
  rewrite (add_to_wishlist_inserts game_id f db Hex Hc).
  set (new_id := next_id (map Wishlist.id (wishlist db))).
  set (entry := {| Wishlist.id := new_id; Wishlist.game_id := game_id;
                   Wishlist.target_price :=
                     stored_target (form_get float_of_str "target_price" f) |}).
  assert (Hold : forall w, In w (wishlist db) ->
                           (Wishlist.id w =? new_id) = false).
  { intros w Hw. apply Z.eqb_neq.
    pose proof (next_id_gt (map Wishlist.id (wishlist db)) (Wishlist.id w)
                  (in_map _ _ _ Hw)). unfold new_id. lia. }
  assert (Hfind : wishlist_get new_id
                    {| games := games db; wishlist := wishlist db ++ [entry] |}
                  = Some entry).
  { unfold wishlist_get; cbn [wishlist]. apply find_snoc_some.
    - destruct (find _ (wishlist db)) as [w|] eqn:Hf; [| reflexivity].
      apply find_some in Hf as [Hw He]. rewrite (Hold w Hw) in He.
      discriminate.
    - cbn. apply Z.eqb_refl. }
  unfold delete_from_wishlist. rewrite Hfind.
  destruct (game_get_in _ db Hex) as [game [Hg _]].
  change (game_get (Wishlist.game_id entry)
            {| games := games db; wishlist := wishlist db ++ [entry] |})
    with (game_get game_id db).
  rewrite Hg. cbn [db_after out]. split; [| reflexivity].
  unfold delete_wishlist; cbn [games wishlist Wishlist.id entry].
  rewrite filter_app. cbn. rewrite Z.eqb_refl. cbn. rewrite app_nil_r.
  rewrite forallb_filter_id.
  - now destruct db.
  - apply forallb_forall. intros w Hw. now rewrite (Hold w Hw).
Qed.

(** X11. After a deletion the entry is gone: on a consistent database and
    for a key in the range of the database, no entry holds the key after the
    first deletion, and a second deletion of the same key answers "not
    found" and changes nothing. *)
Theorem delete_twice wishlist_id db :
  wf db ->
  in_int64 wishlist_id ->
  ~ In wishlist_id
       (map Wishlist.id
            (wishlist (db_after (delete_from_wishlist wishlist_id db)))) /\
  wishlist_get wishlist_id (db_after (delete_from_wishlist wishlist_id db))
  = None /\
  delete_from_wishlist wishlist_id
    (db_after (delete_from_wishlist wishlist_id db)) =
  {| out := Redirect "wishlist";
     db_after := db_after (delete_from_wishlist wishlist_id db);
     logged := [];
     flashed := [("Wishlist item not found.", "danger")] |}.
Proof.
  intros Hwf _.
  assert (Hgone : wishlist_get wishlist_id
                    (db_after (delete_from_wishlist wishlist_id db)) = None).
  { unfold delete_from_wishlist.
    destruct (wishlist_get wishlist_id db) as [item|] eqn:Hi;
      [| cbn [db_after]; exact Hi].
    apply wishlist_get_some in Hi as [Hin Hid].
    destruct (game_get_in _ db (wf_game_ref db Hwf item Hin)) as [game [-> _]].
    cbn [db_after]. rewrite Hid. unfold wishlist_get, delete_wishlist.
    cbn [wishlist]. apply (find_filter_out (fun w => Wishlist.id w =? wishlist_id)). }
  split; [| split; [exact Hgone |]].
  - intros Hc. apply in_map_iff in Hc as [w [Hw Hc]].
    apply (find_none _ _ Hgone) in Hc. lia.
  - unfold delete_from_wishlist at 1. now rewrite Hgone.
Qed.

(** X12. What a well-formed update does on a consistent database: with a
    key other than 0 in the range of the database and a readable price, the
    entry with that key gets the price as the column stores it (unset for a
    NaN), every other entry and every game stays as it is, and the notice
    names the entry's game and the price to two decimals; a key that no
    entry holds gives "not found" and changes nothing. Both redirect. *)
Theorem update_wishlist_item_effect f wid p db :
  wf db ->
  form_get int_of_str "wishlist_id" f = Some wid ->
  wid <> 0 ->
  in_int64 wid ->
  form_get float_of_str "target_price" f = Some p ->
  out (update_wishlist_item float_str float_2f int_of_str float_of_str f db)
  = Redirect "wishlist" /\
  games
    (db_after
       (update_wishlist_item float_str float_2f int_of_str float_of_str f db))
  = games db /\
  ((forall w, In w (wishlist db) -> Wishlist.id w <> wid) ->
   db_after
     (update_wishlist_item float_str float_2f int_of_str float_of_str f db)
   = db /\
   flashed
     (update_wishlist_item float_str float_2f int_of_str float_of_str f db)
   = [("Wishlist item not found.", "danger")]) /\
  (forall item,
      In item (wishlist db) ->
      Wishlist.id item = wid ->
      exists game before after,
        In game (games db) /\
        Game.id game = Wishlist.game_id item /\
        wishlist db = (before ++ item :: after)%list /\
        wishlist
          (db_after
             (update_wishlist_item float_str float_2f int_of_str float_of_str
                f db))
        = (before ++
           {| Wishlist.id := Wishlist.id item;
              Wishlist.game_id := Wishlist.game_id item;
              Wishlist.target_price := stored_real p |} :: after)%list /\
        flashed
          (update_wishlist_item float_str float_2f int_of_str float_of_str f db)
        = [("Updated target price for " ++ Game.name game ++ " to $" ++
            float_2f p ++ ".", "success")]).
Proof.
  intros Hwf Hw Hnz _ Hp. unfold update_wishlist_item. rewrite Hw, Hp.
  destruct (Z.eqb_spec wid 0) as [|_]; [contradiction |].
  destruct (wishlist_get wid db) as [item0|] eqn:Hi.
  - pose proof Hi as Hfound.
    apply wishlist_get_some in Hi as [Hin Hid].
    destruct (game_get_in _ db (wf_game_ref db Hwf item0 Hin))
      as [game [Hg [Hgin Hgid]]].
    change (game_get (Wishlist.game_id item0)
              (set_target_price (Wishlist.id item0) p db))
      with (game_get (Wishlist.game_id item0) db).
    rewrite Hg. cbn [out db_after flashed].
    split; [reflexivity |]. split; [reflexivity |]. split.
    + intros Hnone. exfalso. exact (Hnone item0 Hin Hid).
    + intros item Hitem Hitemid.
      assert (Heq : item = item0).
      { pose proof (find_unique Wishlist.id (wishlist db) item
                      (increasing_NoDup _ (wf_wishlist_ids db Hwf)) Hitem)
          as Hu.
        unfold wishlist_get in Hfound. rewrite Hitemid, Hfound in Hu.
        now injection Hu. }
      subst item.
      destruct (map_at_unique Wishlist.id (with_target p) (wishlist db) item0)
        as [before [after [Hl Hm]]];
        [apply increasing_NoDup, Hwf | assumption |].
      exists game, before, after. repeat split; assumption.
  - cbn [out db_after flashed]. split; [reflexivity |].
    split; [reflexivity |]. split.
    + intros _. now split.
    + intros item Hitem Hitemid. exfalso.
      apply (find_none _ _ Hi) in Hitem. lia.
Qed.

End WishlistEffects.

(** X13. On a consistent database no wishlist entry has the key 0, the one key
    the update handler refuses. *)
Theorem no_entry_with_key_zero (db : DB) :
  wf db -> wishlist_get 0 db = None.
Proof.
  intros Hwf. unfold wishlist_get.
  destruct (find _ (wishlist db)) as [w|] eqn:Hf; [| reflexivity].
  apply find_some in Hf as [Hin He]. apply Z.eqb_eq in He.
  pose proof (increasing_positive _ (Wishlist.id w) (wf_wishlist_ids db Hwf)
                (in_map _ _ _ Hin)). lia.
Qed.

(** ** The wishlist page *)

Section WishlistPageProperties.

Variable float_str : float -> string.

Lemma item_lines_all (db : DB) (items : list Wishlist.t) :
  (forall item, In item items ->
                In (Wishlist.game_id item) (map Game.id (games db))) ->
  snd (item_lines float_str items db) = true /\
  List.length (fst (item_lines float_str items db)) = List.length items.
Proof.
  induction items as [|item rest IH]; intros Href; [now split |].
  cbn [item_lines].
  destruct (game_get_in _ db (Href item (or_introl eq_refl))) as [game [-> _]].
  destruct IH as [Hs Hl]; [intros x Hx; apply Href; now right |].
  destruct (item_lines float_str rest db) as [l finished].
  cbn in *. split; [exact Hs | now rewrite Hl].
Qed.

Lemma item_lines_orphan (db : DB) (items : list Wishlist.t) (item : Wishlist.t) :
  In item items ->
  game_get (Wishlist.game_id item) db = None ->
  snd (item_lines float_str items db) = false.
Proof.
  induction items as [|x rest IH]; intros Hin Hg; [contradiction |].
  cbn [item_lines]. destruct Hin as [-> | Hin]; [now rewrite Hg |].
  destruct (game_get (Wishlist.game_id x) db); [| reflexivity].
  specialize (IH Hin Hg).
  destruct (item_lines float_str rest db) as [l finished]. exact IH.
Qed.

(** X14. On a consistent database the wishlist page shows every entry, in the
    order of the table, changes nothing and logs two lines and one more per
    entry. *)
Theorem wishlist_view_shows_all (db : DB) :
  wf db ->
  out (wishlist_view float_str db) =
  Render "wishlist.html" (map Wishlist.id (wishlist db)) /\
  db_after (wishlist_view float_str db) = db /\
  List.length (logged (wishlist_view float_str db)) =
  (2 + List.length (wishlist db))%nat.
Proof.
  intros Hwf. unfold wishlist_view.
  destruct (item_lines_all db (wishlist db) (wf_game_ref db Hwf)) as [Hs Hl].
  destruct (item_lines float_str (wishlist db) db) as [l finished].
  cbn [fst snd] in Hs, Hl. subst finished. cbn [out db_after logged].
  repeat split. cbn. now rewrite Hl.
Qed.

(** X15. One entry whose game is missing empties the wishlist page: the view
    catches the error, logs it and renders no entry at all. *)
Theorem wishlist_view_orphan (db : DB) (item : Wishlist.t) :
  In item (wishlist db) ->
  game_get (Wishlist.game_id item) db = None ->
  out (wishlist_view float_str db) = Render "wishlist.html" [] /\
  db_after (wishlist_view float_str db) = db /\
  In "Error fetching wishlist items: 'NoneType' object has no attribute 'name'"
     (logged (wishlist_view float_str db)).
Proof.
  intros Hin Hg. unfold wishlist_view.
  pose proof (item_lines_orphan db (wishlist db) item Hin Hg) as Hs.
  destruct (item_lines float_str (wishlist db) db) as [l finished].
  cbn [snd] in Hs. subst finished. cbn [out db_after logged].
  repeat split. apply in_or_app. right. apply in_or_app. right. now left.
Qed.

End WishlistPageProperties.

(** ** The lookup client, in order *)

(** X16. The client returns one listing per candidate that passes the filter and
    has price data, in the order of the storefront's answer, under the
    candidate's own name and identifier. *)
Theorem lookup_in_storefront_order steam game_name search_results :
  storesearch steam game_name = Ok search_results ->
  map (fun sg => (sg_name sg, sg_appid sg))
      (fst (get_steam_price_by_name steam game_name)) =
  map (fun game => (item_name game, item_id game))
      (filter (kept steam game_name) search_results).
Proof.
  intros Hs. rewrite (lookup_ok _ _ _ Hs), matching_games_flat_map. cbn [fst].
  clear Hs. induction search_results as [|game rest IH]; [reflexivity |].
  cbn [flat_map filter]. rewrite map_app, IH.
  unfold listing_of, kept.
  destruct (name_matches game_name (item_name game)); [| reflexivity].
  now destruct (fst (fetch_price_data steam (item_id game))).
Qed.

(** ** The migration *)

(** X17. Downgrading after the upgrade gives back the old table; upgrading after
    a downgrade keeps every entry's key and game and unsets every target
    price. *)
Theorem migration_round_trip :
  (forall table, Migration.downgrade (Migration.upgrade table) = table) /\
  (forall table,
      map Wishlist.id (Migration.upgrade (Migration.downgrade table)) =
      map Wishlist.id table /\
      map Wishlist.game_id (Migration.upgrade (Migration.downgrade table)) =
      map Wishlist.game_id table /\
      Forall (fun w => Wishlist.target_price w = None)
             (Migration.upgrade (Migration.downgrade table))).
Proof.
  split.
  - intros table. unfold Migration.downgrade, Migration.upgrade.
    rewrite map_map. rewrite <- (map_id table) at 2. apply map_ext.
    now intros [i g].
  - intros table. unfold Migration.downgrade, Migration.upgrade.
    rewrite !map_map. repeat split.
    apply Forall_forall. intros w Hw. apply in_map_iff in Hw as [x [<- _]].
    reflexivity.
Qed.

(** ** The further theorems at work on the sample data *)

Lemma search_refreshes_price_witness :
  game_get 1 (db_after (search sample_float_str steam_portal "Portal" db_portal))
  = Some {| Game.id := 1; Game.name := "Portal";
            Game.steam_id := "400"; Game.price := 4.99%float |}.
Proof.
  assert (Hfound : games_by_name "Portal" db_portal <> []) by discriminate.
  assert (Hlast : forall sg',
             In sg' [{| sg_name := "Portal 2"; sg_appid := 620;
                        sg_price := 19.99%float |}] ->
             sg_appid sg' <> 400).
  { intros sg' [<- | []]. discriminate. }
  exact (proj1
           (search_refreshes_price sample_float_str steam_portal "Portal"
              db_portal []
              {| sg_name := "Portal"; sg_appid := 400; sg_price := 4.99%float |}
              _ _ db_portal_wf Hfound eq_refl Hlast eq_refl)).
Defined.

Lemma search_stores_new_items_witness :
  exists new_rows,
    games (db_after (search sample_float_str steam_portal "Portal" empty_db)) =
    new_rows /\
    map columns new_rows =
    [("Portal", "400", 4.99%float); ("Portal 2", "620", 19.99%float)] /\
    out (search sample_float_str steam_portal "Portal" empty_db) =
    Render "index.html" (map Game.id new_rows).
Proof.
  apply (search_stores_new_items sample_float_str steam_portal "Portal" empty_db).
  - reflexivity.
  - cbn. repeat constructor; cbn; intuition discriminate.
  - cbn. repeat constructor; cbn; intuition discriminate.
  - intros sg _. split; [reflexivity | intros []].
Defined.

Lemma search_duplicate_name_fails_witness :
  out (search sample_float_str steam_half_life "Half Life" db_half_life)
  = Crash "IntegrityError" /\
  db_after (search sample_float_str steam_half_life "Half Life" db_half_life)
  = db_half_life.
Proof.
  apply (search_duplicate_name_fails sample_float_str steam_half_life
           "Half Life" db_half_life []
           {| sg_name := "Half-Life 2"; sg_appid := 220;
              sg_price := 19.99%float |} []).
  - reflexivity.
  - reflexivity.
  - intros sg' [].
  - now left.
  - reflexivity.
Defined.

Lemma add_then_delete_witness :
  db_after
    (delete_from_wishlist 1
       (db_after (add_to_wishlist sample_float_str sample_float 1
                    [("target_price", "5")] db_no_wishlist)))
  = db_no_wishlist.
Proof.
  exact (proj1 (add_then_delete sample_float_str sample_float 1
                  [("target_price", "5")] db_no_wishlist
                  (or_introl eq_refl) eq_refl)).
Defined.

Lemma delete_twice_witness :
  ~ In 1 (map Wishlist.id
              (wishlist (db_after (delete_from_wishlist 1 db_portal)))) /\
  flashed (delete_from_wishlist 1 (db_after (delete_from_wishlist 1 db_portal)))
  = [("Wishlist item not found.", "danger")].
Proof.
  destruct (delete_twice 1 db_portal db_portal_wf in_int64_one)
    as [Hgone [_ Hsecond]].
  split; [exact Hgone | now rewrite Hsecond].
Defined.

Lemma update_wishlist_item_effect_witness :
  wishlist
    (db_after
       (update_wishlist_item sample_float_str sample_float_str sample_int
          sample_float [("wishlist_id", "1"); ("target_price", "5")] db_portal))
  = [{| Wishlist.id := 1; Wishlist.game_id := 1;
        Wishlist.target_price := Some 5%float |}] /\
  flashed
    (update_wishlist_item sample_float_str sample_float_str sample_int
       sample_float [("wishlist_id", "1"); ("target_price", "5")] db_portal)
  = [("Updated target price for Portal to $<float>.", "success")].
Proof.
  assert (Hnz : 1 <> 0) by lia.
  destruct (update_wishlist_item_effect sample_float_str sample_float_str
              sample_int sample_float
              [("wishlist_id", "1"); ("target_price", "5")] 1
              (Py.float_of_int 5) db_portal db_portal_wf eq_refl Hnz
              in_int64_one eq_refl)
    as [_ [_ [_ Hset]]].
  destruct (Hset {| Wishlist.id := 1; Wishlist.game_id := 1;
                    Wishlist.target_price := None |}
              (or_introl eq_refl) eq_refl)
    as [game [before [after [Hin [_ [Hl [Hw Hflash]]]]]]].
  destruct Hin as [<- | []].
  destruct before as [|x before].
  - cbn in Hl. injection Hl as <-. split; [exact Hw | exact Hflash].
  - exfalso. cbn in Hl. injection Hl as _ Hl. now destruct before.
Defined.

Lemma wishlist_view_shows_all_witness :
  out (wishlist_view sample_float_str db_portal) = Render "wishlist.html" [1].
Proof.
  exact (proj1 (wishlist_view_shows_all sample_float_str db_portal
                  db_portal_wf)).
Defined.

Lemma wishlist_view_orphan_witness :
  out (wishlist_view sample_float_str db_orphan) = Render "wishlist.html" [].
Proof.
  exact (proj1 (wishlist_view_orphan sample_float_str db_orphan
                  {| Wishlist.id := 1; Wishlist.game_id := 7;
                     Wishlist.target_price := None |}
                  (or_introl eq_refl) eq_refl)).
Defined.

Lemma lookup_in_storefront_order_witness :
  map (fun sg => (sg_name sg, sg_appid sg))
      (fst (get_steam_price_by_name steam_half_life "Half Life")) =
  [("Half-Life 2", 220)].
Proof.
  exact (lookup_in_storefront_order steam_half_life "Half Life"
           [half_life_2; portal] eq_refl).
Defined.

Lemma no_entry_with_key_zero_witness : wishlist_get 0 db_portal = None.
Proof. exact (no_entry_with_key_zero db_portal db_portal_wf). Defined.

Lemma add_to_wishlist_effect_witness :
  db_after (add_to_wishlist sample_float_str sample_float 1
              [("target_price", "5")] db_no_wishlist)
  = {| games := games db_no_wishlist;
       wishlist := [{| Wishlist.id := 1; Wishlist.game_id := 1;
                       Wishlist.target_price := Some 5%float |}] |}.
Proof.
  destruct (add_to_wishlist_effect sample_float_str sample_float 1
              [("target_price", "5")] db_no_wishlist in_int64_one)
    as [_ [Hadd _]].
  exact (Hadd (conj (or_introl eq_refl) eq_refl)).
Defined.
